(** * packages.electronjs.org redirect worker: model and verification

    The worker ([src/index.ts]) receives a request, matches the path of its
    URL against one regular expression, resolves the package's version from
    a key-value store or from the npm registry, and answers with a redirect.
    The platform around it is modelled as far as the worker uses it: the
    matching of a regular expression, the URL class, the KV namespace, the
    network and the console.

    Strings are Rocq [string]s (sequences of 8-bit characters); the paths
    and query strings that a URL parser hands to the worker are ASCII. *)

From Stdlib Require Import String Ascii ZArith Bool Lia.
From stdpp Require Import base option list gmap strings pretty.

Set Warnings "-register-all".

Local Open Scope string_scope.

(** ** Regular expressions, with the backtracking semantics of ECMAScript *)

Module RegExp.

(** The fragment of the pattern syntax that the worker's pattern uses.
    A non-capturing group [(?:r)] is [r] itself; [r+] is [Repeat r 1 None],
    [r*] is [Repeat r 0 None] and [r?] is [Repeat r 0 (Some 1)]. *)
Inductive Regex : Type :=
| Char (c : ascii)                    (* a literal character *)
| NotChar (c : ascii)                 (* [^c] *)
| Dot                                 (* . (no s flag) *)
| AssertStart                         (* ^ (no m flag) *)
| AssertEnd                           (* $ (no m flag) *)
| Seq (r1 r2 : Regex)
| Alt (r1 r2 : Regex)
| Group (n : nat) (r : Regex)         (* the n-th capturing group *)
| Repeat (r : Regex) (min : nat) (max : option nat).   (* greedy *)

Definition Plus (r : Regex) : Regex := Repeat r 1 None.
Definition Star (r : Regex) : Regex := Repeat r 0 None.
Definition Opt (r : Regex) : Regex := Repeat r 0 (Some 1).

(** LineTerminator, as far as 8-bit characters go: LF and CR. *)
Definition isLineTerminator (c : ascii) : bool :=
  Ascii.eqb c "010"%char || Ascii.eqb c "013"%char.

(** The state of a match: how many characters are consumed ([endIndex]),
    what is left of the input, and the captures so far (slot [n] for
    group [n]; slot 0 is filled by [exec]). *)
Record MatchState : Type := mkState {
  endIndex : nat;
  rest : string;
  captures : list (option string)
}.

Definition MatcherContinuation : Type := MatchState -> option MatchState.

Definition advance (x : MatchState) (s' : string) : MatchState :=
  mkState (S (endIndex x)) s' (captures x).

Definition CharacterSetMatcher (p : ascii -> bool) (x : MatchState)
    (c : MatcherContinuation) : option MatchState :=
  match rest x with
  | EmptyString => None
  | String ch s' => if p ch then c (advance x s') else None
  end.

(** The capturing groups inside a pattern, which a quantifier resets
    before each iteration. *)
Fixpoint groupsOf (r : Regex) : list nat :=
  match r with
  | Char _ | NotChar _ | Dot | AssertStart | AssertEnd => []
  | Seq r1 r2 | Alt r1 r2 => groupsOf r1 ++ groupsOf r2
  | Group n r1 => n :: groupsOf r1
  | Repeat r1 _ _ => groupsOf r1
  end.

Definition clearCaptures (gs : list nat) (x : MatchState) : MatchState :=
  mkState (endIndex x) (rest x)
          (foldr (fun n caps => <[n := None]> caps) (captures x) gs).

Definition decr (max : option nat) : option nat := Nat.pred <$> max.

Definition Matcher : Type := MatchState -> MatcherContinuation -> option MatchState.

(** RepeatMatcher of the language specification, for a greedy quantifier
    over the matcher [m] whose capturing groups are [gs].  A round either
    uses up one of the [min] mandatory rounds or must consume a character,
    so there are at most [min + length (rest x)] rounds, and one more call
    that stops at [max = 0]; [matcher] passes that much [fuel].  For the
    pattern of the worker, [String_match_pathRegex] gives the result on
    every input without it. *)
Fixpoint RepeatMatcher (m : Matcher) (gs : list nat) (fuel min : nat)
    (max : option nat) (x : MatchState) (c : MatcherContinuation)
    {struct fuel} : option MatchState :=
  match fuel with
  | 0 => None
  | S fuel' =>
      match max with
      | Some 0 => c x
      | _ =>
          let d : MatcherContinuation := fun y =>
            if Nat.eqb min 0 && Nat.eqb (endIndex y) (endIndex x)
            then None
            else RepeatMatcher m gs fuel' (Nat.pred min) (decr max) y c in
          let xr := clearCaptures gs x in
          if Nat.eqb min 0 then
            match m xr d with
            | Some z => Some z
            | None => c x
            end
          else m xr d
      end
  end.

(** [matcher r input x c]: match [r] at state [x] of [input], then go on
    with [c]; [None] is failure, on which the caller backtracks. *)
Fixpoint matcher (r : Regex) (input : string) {struct r} : Matcher :=
  fun x c =>
  match r with
  | Char ch => CharacterSetMatcher (Ascii.eqb ch) x c
  | NotChar ch => CharacterSetMatcher (fun a => negb (Ascii.eqb ch a)) x c
  | Dot => CharacterSetMatcher (fun a => negb (isLineTerminator a)) x c
  | AssertStart => if Nat.eqb (endIndex x) 0 then c x else None
  | AssertEnd => match rest x with EmptyString => c x | String _ _ => None end
  | Seq r1 r2 => matcher r1 input x (fun y => matcher r2 input y c)
  | Alt r1 r2 =>
      match matcher r1 input x c with
      | Some z => Some z
      | None => matcher r2 input x c
      end
  | Group n r1 =>
      matcher r1 input x (fun y =>
        let cap := substring (endIndex x) (endIndex y - endIndex x) input in
        c (mkState (endIndex y) (rest y) (<[n := Some cap]> (captures y))))
  | Repeat r1 min max =>
      RepeatMatcher (matcher r1 input) (groupsOf r1)
                    (2 + min + String.length (rest x)) min max x c
  end.

(** The number of the last capturing group. *)
Definition nCaptures (r : Regex) : nat := foldr Nat.max 0 (groupsOf r).

(** RegExpBuiltinExec for a pattern without the g and y flags: try every
    start index from 0 on; the first match wins.  The result is the match
    array: the matched text, then the captures ([None] is undefined). *)
Fixpoint search (r : Regex) (input : string) (i : nat) (suffix : string)
    : option (list (option string)) :=
  match matcher r input (mkState i suffix (replicate (S (nCaptures r)) None)) Some with
  | Some y =>
      Some (<[0 := Some (substring i (endIndex y - i) input)]> (captures y))
  | None =>
      match suffix with
      | EmptyString => None
      | String _ s' => search r input (S i) s'
      end
  end.

Definition exec (r : Regex) (input : string) : option (list (option string)) :=
  search r input 0 input.

(** A literal string, [c1 c2 ... cn]. *)
Fixpoint Lit (c : ascii) (s : string) : Regex :=
  match s with
  | EmptyString => Char c
  | String c' s' => Seq (Char c) (Lit c' s')
  end.

End RegExp.

Import RegExp.

(** The pattern of the worker, written here with [SL] for an escaped slash
    and [ANY] for a dot followed by a star:
    [^ SL ([^SL]+) (?: SL latest (SL ANY)? | SL? )? $]. *)
Definition pathRegex : Regex :=
  Seq AssertStart
  (Seq (Char "/")
  (Seq (Group 1 (Plus (NotChar "/")))
  (Seq (Opt (Alt (Seq (Lit "/" "latest") (Opt (Group 2 (Seq (Char "/") (Star Dot)))))
                 (Opt (Char "/"))))
       AssertEnd))).

(** [pathname.match(re)] for a pattern without the g flag is [re.exec(pathname)]. *)
Definition String_match (s : string) (r : Regex) : option (list (option string)) :=
  exec r s.


(** ** The platform's URL class, for a path resolved against an origin

    [new URL(input, base)] of the URL Standard, for an [input] that is a
    path-absolute reference (one slash, then path, query and fragment) and a
    [base] that is the origin of an https URL.  An input that names a scheme
    or an authority of its own is outside this model ([None]). *)

Module URL.

Record t : Type := mkURL {
  origin : string;                (* scheme, two slashes, host *)
  path : list string;             (* the path segments *)
  query : option string;
  fragment : option string
}.

Definition code (c : ascii) : nat := nat_of_ascii c.

Definition oneOf (codes : list nat) (c : ascii) : bool :=
  existsb (Nat.eqb (code c)) codes.

(** The percent-encode sets.  32 is the space, 34 the double quote, 35 #,
    39 the apostrophe, 60 and 62 the angle brackets, 63 ?, 94 the caret,
    96 the backtick, 123 and 125 the braces. *)
Definition inC0ControlSet (c : ascii) : bool :=
  (code c <=? 31)%nat || (126 <? code c)%nat.
Definition inFragmentSet (c : ascii) : bool :=
  inC0ControlSet c || oneOf [32; 34; 60; 62; 96] c.
Definition inQuerySet (c : ascii) : bool :=
  inC0ControlSet c || oneOf [32; 34; 35; 60; 62] c.
Definition inSpecialQuerySet (c : ascii) : bool :=
  inQuerySet c || oneOf [39] c.
Definition inPathSet (c : ascii) : bool :=
  inQuerySet c || oneOf [63; 94; 96; 123; 125] c.

Definition hexDigit (n : nat) : ascii :=
  if (n <? 10)%nat then ascii_of_nat (48 + n) else ascii_of_nat (55 + n).

(** Percent-encode one character [c] if it is in the set. *)
Definition percentEncode (inSet : ascii -> bool) (c : ascii) : string :=
  if inSet c
  then String "%" (String (hexDigit (code c / 16)) (String (hexDigit (code c mod 16)) ""))
  else String c "".

Fixpoint percentEncodeAll (inSet : ascii -> bool) (s : string) : string :=
  match s with
  | EmptyString => ""
  | String c s' => percentEncode inSet c ++ percentEncodeAll inSet s'
  end.

Fixpoint filterString (p : ascii -> bool) (s : string) : string :=
  match s with
  | EmptyString => ""
  | String c s' => if p c then String c (filterString p s') else filterString p s'
  end.

Definition isTabOrNewline (c : ascii) : bool := oneOf [9; 10; 13] c.
Definition isC0ControlOrSpace (c : ascii) : bool := (code c <=? 32)%nat.

Definition removeTabAndNewline (s : string) : string :=
  filterString (fun c => negb (isTabOrNewline c)) s.

Fixpoint trimStart (s : string) : string :=
  match s with
  | EmptyString => ""
  | String c s' => if isC0ControlOrSpace c then trimStart s' else s
  end.

Fixpoint trimEnd (s : string) : string :=
  match s with
  | EmptyString => ""
  | String c s' =>
      match trimEnd s' with
      | EmptyString => if isC0ControlOrSpace c then "" else String c ""
      | t => String c t
      end
  end.

Definition isSingleDot (buffer : string) : bool :=
  bool_decide (buffer ∈ ["."; "%2e"; "%2E"]).

Definition isDoubleDot (buffer : string) : bool :=
  bool_decide (buffer ∈ [".."; ".%2e"; ".%2E"; "%2e."; "%2E.";
                         "%2e%2e"; "%2e%2E"; "%2E%2e"; "%2E%2E"]).

(** Shorten a path: drop its last segment, if any. *)
Definition shorten (p : list string) : list string := removelast p.

(** What the path state does with the segment in [buffer] when it meets a
    slash ([atSlash]) or the end of the path. *)
Definition pushSegment (buffer : string) (p : list string) (atSlash : bool)
    : list string :=
  if isDoubleDot buffer then
    (if atSlash then shorten p else shorten p ++ [""])
  else if isSingleDot buffer then
    (if atSlash then p else p ++ [""])
  else p ++ [buffer].

Definition fragmentState (s : string) : string :=
  percentEncodeAll inFragmentSet s.

(** Query state: up to a #, which starts the fragment. *)
Fixpoint queryState (s : string) (q : string) : string * option string :=
  match s with
  | EmptyString => (q, None)
  | String c s' =>
      if Ascii.eqb c "#" then (q, Some (fragmentState s'))
      else queryState s' (q ++ percentEncode inSpecialQuerySet c)
  end.

Definition isSlash (c : ascii) : bool := Ascii.eqb c "/" || Ascii.eqb c "\".

(** Path state of a special scheme: a slash or a backslash ends a segment,
    ? starts the query, # the fragment. *)
Fixpoint pathState (s : string) (buffer : string) (p : list string)
    : list string * option string * option string :=
  match s with
  | EmptyString => (pushSegment buffer p false, None, None)
  | String c s' =>
      if isSlash c then
        pathState s' "" (pushSegment buffer p true)
      else if Ascii.eqb c "?" then
        let '(q, f) := queryState s' "" in
        (pushSegment buffer p false, Some q, f)
      else if Ascii.eqb c "#" then
        (pushSegment buffer p false, None, Some (fragmentState s'))
      else pathState s' (buffer ++ percentEncode inPathSet c) p
  end.

Definition beginsWith (p : ascii -> bool) (s : string) : bool :=
  match s with
  | EmptyString => false
  | String c _ => p c
  end.

(** [new URL(input, base)] where [base] is an origin.  After the first
    slash, a second slash or a backslash starts an authority. *)
Definition new (input : string) (base : string) : option t :=
  match removeTabAndNewline (trimEnd (trimStart input)) with
  | EmptyString => None
  | String c s' =>
      if Ascii.eqb c "/" then
        if beginsWith isSlash s' then None
        else let '(p, q, f) := pathState s' "" [] in Some (mkURL base p q f)
      else None
  end.

Definition pathname (u : t) : string :=
  String.concat "" (map (String.append "/") (path u)).

(** The [search] getter. *)
Definition search (u : t) : string :=
  match query u with
  | None | Some EmptyString => ""
  | Some q => "?" ++ q
  end.

(** The [search] setter: the empty string removes the query; otherwise a
    leading ? is dropped and the value goes through the query state. *)
Definition set_search (u : t) (value : string) : t :=
  match value with
  | EmptyString => mkURL (origin u) (path u) None (fragment u)
  | String c v =>
      let input := if Ascii.eqb c "?" then v else value in
      let q := percentEncodeAll inSpecialQuerySet (removeTabAndNewline input) in
      mkURL (origin u) (path u) (Some q) (fragment u)
  end.

(** The serializer, which [toString()] and [href] return. *)
Definition toString (u : t) : string :=
  origin u ++ pathname u
    ++ match query u with Some q => "?" ++ q | None => "" end
    ++ match fragment u with Some f => "#" ++ f | None => "" end.

End URL.


(** ** Values, requests and responses *)

(** The values that reach the worker: results of [KV.get], parsed JSON
    bodies and their properties.  A number is an integer that a double
    represents exactly, of magnitude below 10^21; other numbers are outside
    the model, and what is stated of the text of a version is stated for
    strings.  An object lists its properties, each key once. *)
Inductive JsValue : Type :=
| JsUndefined
| JsNull
| JsBool (b : bool)
| JsNumber (z : Z)
| JsString (s : string)
| JsArray (elements : list JsValue)
| JsObject (properties : list (string * JsValue)).

(** ToBoolean: what [if (v)] and [!v] test. *)
Definition ToBoolean (v : JsValue) : bool :=
  match v with
  | JsUndefined | JsNull => false
  | JsBool b => b
  | JsNumber z => negb (Z.eqb z 0)
  | JsString s => negb (String.eqb s "")
  | JsArray _ | JsObject _ => true
  end.

(** ToString: what a template literal does with [${v}].  For a number it
    gives the decimal digits, which is the text of an integer of magnitude
    below 10^21. *)
Fixpoint ToString (v : JsValue) : string :=
  match v with
  | JsUndefined => "undefined"
  | JsNull => "null"
  | JsBool true => "true"
  | JsBool false => "false"
  | JsNumber z => pretty z
  | JsString s => s
  | JsArray l =>
      String.concat ","
        (map (fun e => match e with
                       | JsUndefined | JsNull => ""
                       | _ => ToString e
                       end) l)
  | JsObject _ => "[object Object]"
  end.

Inductive Exn : Type :=
| KVError            (* the store rejects a read or a write *)
| NetworkError       (* fetch rejects *)
| SyntaxError        (* the body is not JSON *)
| TypeError.         (* a property of null or undefined is read *)

Record Request : Type := mkRequest {
  method : string;
  url : URL.t           (* [new URL(request.url)] *)
}.

Inductive Response : Type :=
| Response_redirect (location : string) (status : Z)   (* [Response.redirect(location, status)] *)
| Response_fetched (request : Request).                (* what [fetch(request)] gives: a response of the origin, or a rejection *)

(** ** The environment: the KV namespace, the network, the console *)

Record KVEntry : Type := mkEntry {
  value : string;
  expirationTtl : option Z
}.

(** What [fetch(url)] settles to: a rejection, or a response with a status
    and a body, which parses as JSON ([Some]) or not ([None]). *)
Inductive FetchResult : Type :=
| Rejects
| Responds (status : Z) (body : option JsValue).

Inductive Effect : Type :=
| KV_get (key : string)
| KV_put (key : string) (v : JsValue) (ttl : option Z)
| Fetch_url (target : string)
| Fetch_request (request : Request).

Inductive LogArg : Type :=
| ArgNone
| ArgStatus (z : Z)
| ArgError (e : Exn).

Inductive LogEntry : Type :=
| Info (message : string)
| Warn (message : string) (arg : LogArg).

Record World : Type := mkWorld {
  KV : gmap string KVEntry;                 (* the contents of the namespace *)
  KV_get_throws : string -> bool;           (* is the store unavailable for this read *)
  KV_put_throws : string -> JsValue -> bool;  (* does the store reject this write *)
  network : string -> FetchResult;          (* the upstream, by URL *)
  effects : list Effect;                    (* the calls made so far, oldest first *)
  console : list LogEntry
}.

(** ** A state and exception monad for the body of the handler *)

Inductive Outcome (A : Type) : Type :=
| Normal (a : A)
| Throw (e : Exn)
| Unmodelled.      (* the URL model does not cover the input *)
Arguments Normal {A} a.
Arguments Throw {A} e.
Arguments Unmodelled {A}.

Definition M (A : Type) : Type := World -> Outcome A * World.

Definition ret {A} (a : A) : M A := fun w => (Normal a, w).
Definition throw {A} (e : Exn) : M A := fun w => (Throw e, w).

Definition bind {A B} (m : M A) (k : A -> M B) : M B :=
  fun w =>
    match m w with
    | (Normal a, w') => k a w'
    | (Throw e, w') => (Throw e, w')
    | (Unmodelled, w') => (Unmodelled, w')
    end.

(** [try { body } catch (error) { handler }] *)
Definition try_catch {A} (body : M A) (handler : Exn -> M A) : M A :=
  fun w =>
    match body w with
    | (Throw e, w') => handler e w'
    | r => r
    end.

Definition modelled {A} (o : option A) : M A :=
  fun w => match o with Some a => (Normal a, w) | None => (Unmodelled, w) end.

Declare Scope worker_scope.
Delimit Scope worker_scope with worker.
Notation "x <- m ;; k" := (bind m (fun x => k))
  (at level 100, m at next level, right associativity) : worker_scope.
Notation "m ;;; k" := (bind m (fun _ => k))
  (at level 100, right associativity) : worker_scope.
Local Open Scope worker_scope.

Definition record (e : Effect) : M unit :=
  fun w => (Normal tt,
            mkWorld (KV w) (KV_get_throws w) (KV_put_throws w) (network w)
                    (effects w ++ [e]) (console w)).

Definition log (l : LogEntry) : M unit :=
  fun w => (Normal tt,
            mkWorld (KV w) (KV_get_throws w) (KV_put_throws w) (network w)
                    (effects w) (console w ++ [l])).

Definition console_info (message : string) : M unit := log (Info message).
Definition console_warn (message : string) (arg : LogArg) : M unit :=
  log (Warn message arg).

(** [env.KV.get(key)]: the stored string, or null. *)
Definition env_KV_get (key : string) : M JsValue :=
  record (KV_get key) ;;;
  fun w =>
    if KV_get_throws w key then (Throw KVError, w)
    else (Normal (match KV w !! key with
                  | Some e => JsString (value e)
                  | None => JsNull
                  end), w).

(** [env.KV.put(key, v, { expirationTtl: ttl })]: the store keeps the
    string of [v]; whether it takes a value that is not a string is for
    [KV_put_throws] to say. *)
Definition env_KV_put (key : string) (v : JsValue) (ttl : option Z) : M unit :=
  record (KV_put key v ttl) ;;;
  fun w =>
    if KV_put_throws w key v then (Throw KVError, w)
    else (Normal tt,
          mkWorld (<[key := mkEntry (ToString v) ttl]> (KV w))
                  (KV_get_throws w) (KV_put_throws w) (network w)
                  (effects w) (console w)).

(** The global [fetch(url)] on a URL string. *)
Definition global_fetch (target : string) : M (Z * option JsValue) :=
  record (Fetch_url target) ;;;
  fun w =>
    match network w target with
    | Rejects => (Throw NetworkError, w)
    | Responds status body => (Normal (status, body), w)
    end.

(** The global [fetch(request)] on the incoming request, at the last line
    of the handler.  The handler returns the promise of this call as it is:
    [Response_fetched request] stands for what that promise settles to, a
    response of the origin or a rejection.  The call is outside the try
    block, so a rejection of it is the result of the handler. *)
Definition fetch_request (request : Request) : M Response :=
  record (Fetch_request request) ;;;
  ret (Response_fetched request).

(** [response.ok]: the status is in the range 200 to 299. *)
Definition Response_ok (r : Z * option JsValue) : bool :=
  (200 <=? fst r)%Z && (fst r <=? 299)%Z.

Definition Response_status (r : Z * option JsValue) : Z := fst r.

(** [await response.json()] *)
Definition Response_json (r : Z * option JsValue) : M JsValue :=
  match snd r with
  | Some data => ret data
  | None => throw SyntaxError
  end.

(** [data.name]: reading a property of null or undefined throws ([None]);
    an object gives its property, or undefined; the other values have no
    property of the names used here. *)
Definition property (data : JsValue) (name : string) : option JsValue :=
  match data with
  | JsUndefined | JsNull => None
  | JsObject properties =>
      Some (match list_find (fun kv => fst kv = name) properties with
            | Some (_, (_, v)) => v
            | None => JsUndefined
            end)
  | _ => Some JsUndefined
  end.

Definition get_property (data : JsValue) (name : string) : M JsValue :=
  match property data name with
  | Some v => ret v
  | None => throw TypeError
  end.

(** [match[i]] *)
Definition match_group (m : list (option string)) (i : nat) : JsValue :=
  match m !! i with
  | Some (Some s) => JsString s
  | _ => JsUndefined
  end.

(** ** The handler of [src/index.ts] *)

Definition serviceOrigin : string := "https://packages.electronjs.org".

Definition redirectPath (packageName : string) (version : JsValue) : string :=
  "/" ++ packageName ++ "/v" ++ ToString version ++ "/index.html".

(** Lines 64 to 70: the URL of the redirect. *)
Definition redirectUrl (packageName : string) (version : JsValue)
    (search : string) : option URL.t :=
  u ← URL.new (redirectPath packageName version) serviceOrigin;
  Some (URL.set_search u search).

Definition registryUrl (packageName : string) : string :=
  "https://registry.npmjs.org/@electron/" ++ packageName ++ "/latest".

(** Lines 30 to 62: the version from the store, else from the registry. *)
Definition resolveVersion (packageName : string) : M JsValue :=
  version <- env_KV_get packageName ;;
  if negb (ToBoolean version) then
    console_info ("No version found for " ++ packageName
                  ++ " in KV. Querying npm registry...") ;;;
    _req <- global_fetch (registryUrl packageName) ;;
    if Response_ok _req then
      data <- Response_json _req ;;
      npmVersion <- get_property data "version" ;;
      if ToBoolean npmVersion then
        env_KV_put packageName npmVersion (Some 600%Z) ;;;
        ret npmVersion
      else
        console_warn ("No version found for " ++ packageName
                      ++ " in npm registry response.") ArgNone ;;;
        ret version
    else
      console_warn "failed to look up package from npm registry"
                   (ArgStatus (Response_status _req)) ;;;
      ret version
  else
    console_info ("Found version " ++ ToString version ++ " for "
                  ++ packageName ++ " in KV") ;;;
    ret version.

(** [fetch(request, env)].  The try block returns the redirect; when it
    throws, the catch block logs and control reaches the last line. *)
Definition fetch (request : Request) : M Response :=
  let url := url request in
  let pathname := URL.pathname url in
  match String_match pathname pathRegex with
  | Some m =>
      let packageName := ToString (match_group m 1) in
      r <- try_catch
             (version <- resolveVersion packageName ;;
              redirectUrl <- modelled (redirectUrl packageName version (URL.search url)) ;;
              ret (Some (Response_redirect (URL.toString redirectUrl) 302)))
             (fun error =>
                console_warn ("Error looking up package version for "
                              ++ packageName ++ ":") (ArgError error) ;;;
                ret None) ;;
      match r with
      | Some response => ret response
      | None => fetch_request request
      end
  | None => ret (Response_redirect serviceOrigin 302)
  end.

(** ** The other variant of the handler

    The second source file of the repository is the handler before the
    registry was queried: it writes one fixed entry, reads the store, and
    builds the redirect only when the read gives a version. *)

Module Variant.

Definition fetch (request : Request) : M Response :=
  let url := url request in
  let pathname := URL.pathname url in
  match String_match pathname pathRegex with
  | Some m =>
      let packageName := ToString (match_group m 1) in
      r <- try_catch
             (env_KV_put "asar" (JsString "4.0.1") None ;;;
              version <- env_KV_get packageName ;;
              if ToBoolean version then
                redirectUrl <- modelled (redirectUrl packageName version (URL.search url)) ;;
                ret (Some (Response_redirect (URL.toString redirectUrl) 302))
              else
                console_info ("No version found in KV for package: " ++ packageName) ;;;
                ret None)
             (fun error =>
                console_warn ("Error looking up package version for "
                              ++ packageName ++ ":") (ArgError error) ;;;
                ret None) ;;
      match r with
      | Some response => ret response
      | None => fetch_request request
      end
  | None => ret (Response_redirect serviceOrigin 302)
  end.

End Variant.

(** ** Definitions used in the statements *)

(** *** Strings *)

Fixpoint takeWhileS (p : ascii -> bool) (s : string) : string :=
  match s with
  | EmptyString => ""
  | String c s' => if p c then String c (takeWhileS p s') else ""
  end.

Fixpoint dropWhileS (p : ascii -> bool) (s : string) : string :=
  match s with
  | EmptyString => ""
  | String c s' => if p c then dropWhileS p s' else s
  end.

Fixpoint forallS (p : ascii -> bool) (s : string) : bool :=
  match s with
  | EmptyString => true
  | String c s' => p c && forallS p s'
  end.

Fixpoint stripPrefix (pre s : string) : option string :=
  match pre with
  | EmptyString => Some s
  | String c pre' =>
      match s with
      | EmptyString => None
      | String c' s' => if Ascii.eqb c c' then stripPrefix pre' s' else None
      end
  end.

(** *** The shapes of a path *)

Definition notSlash (a : ascii) : bool := negb (Ascii.eqb "/" a).
Definition notLineTerminator (a : ascii) : bool := negb (isLineTerminator a).

(** A path segment: one or more characters, none of them a slash. *)
Definition segment (name : string) : Prop :=
  name <> "" /\ forallS notSlash name = true.

(** The four shapes that the specification recognizes, with the package
    name of each. *)
Inductive recognized : string -> string -> Prop :=
| shape_bare name :
    segment name -> recognized ("/" ++ name) name
| shape_slash name :
    segment name -> recognized ("/" ++ name ++ "/") name
| shape_latest name :
    segment name -> recognized ("/" ++ name ++ "/latest") name
| shape_latest_rest name rest :
    segment name -> recognized ("/" ++ name ++ "/latest/" ++ rest) name.

(** What the pattern does after the first segment: the part of
    [pathRegex] that follows group 1. *)
Definition tailRegex : Regex :=
  Seq (Opt (Alt (Seq (Lit "/" "latest") (Opt (Group 2 (Seq (Char "/") (Star Dot)))))
                 (Opt (Char "/"))))
       AssertEnd.

(** The tails that the pattern accepts, with the text of group 2. *)
Definition tailShape (tail : string) : option (option string) :=
  match stripPrefix "/latest" tail with
  | Some EmptyString => Some None
  | Some (String c r) =>
      if Ascii.eqb "/" c && forallS notLineTerminator r
      then Some (Some (String c r)) else None
  | None =>
      match tail with
      | EmptyString => Some None
      | String c EmptyString => if Ascii.eqb "/" c then Some None else None
      | _ => None
      end
  end.

(** The match array of [pathRegex], computed directly on the path. *)
Definition pathMatchSpec (pathname : string) : option (list (option string)) :=
  match pathname with
  | EmptyString => None
  | String c s =>
      if Ascii.eqb "/" c then
        match takeWhileS notSlash s with
        | EmptyString => None
        | name =>
            match tailShape (dropWhileS notSlash s) with
            | Some g2 => Some [Some pathname; Some name; g2]
            | None => None
            end
        end
      else None
  end.

(** *** Text that a URL parser leaves as it is *)

(** Characters that the path state copies: outside the path
    percent-encode set, and neither a slash nor a backslash. *)
Definition pathKept (c : ascii) : bool :=
  negb (URL.inPathSet c) && negb (Ascii.eqb c "/") && negb (Ascii.eqb c "\").

(** Characters that the query state copies. *)
Definition queryKept (c : ascii) : bool := negb (URL.inSpecialQuerySet c).

(** A segment as a parsed URL has it: of kept characters, and not one of
    the dot segments, which the parser resolves. *)
Definition urlSegment (s : string) : bool :=
  forallS pathKept s && negb (URL.isSingleDot s) && negb (URL.isDoubleDot s).

(** A query as a parsed URL has it. *)
Definition urlQuery (q : option string) : bool :=
  match q with
  | Some q => forallS queryKept q
  | None => true
  end.

(** A URL as the parser yields it. *)
Definition parsedURL (u : URL.t) : Prop :=
  Forall (fun s => urlSegment s = true) (URL.path u)
  /\ urlQuery (URL.query u) = true.

(** *** Requests, environments and calls *)

(** The pattern matches the path, and [name] is [match[1]]. *)
Definition matchesPath (pathname name : string) : Prop :=
  exists m, String_match pathname pathRegex = Some m
            /\ match_group m 1 = JsString name.

(** The path of the request matches, with [packageName] as [match[1]]. *)
Definition matches (request : Request) (packageName : string) : Prop :=
  matchesPath (URL.pathname (url request)) packageName.

(** The calls that the handler makes on a request: what it adds to the
    trace of the environment. *)
Definition calls (request : Request) (w : World) : list Effect :=
  drop (length (effects w)) (effects (fetch request w).2).

Definition isCacheRead (e : Effect) : bool :=
  match e with KV_get _ => true | _ => false end.
Definition isCacheWrite (e : Effect) : bool :=
  match e with KV_put _ _ _ => true | _ => false end.
Definition isUpstreamCall (e : Effect) : bool :=
  match e with Fetch_url _ => true | _ => false end.

Definition count (p : Effect -> bool) (l : list Effect) : nat :=
  length (List.filter p l).

(** The store holds [v] for the package. *)
Definition cached (w : World) (packageName v : string) : Prop :=
  exists ttl, KV w !! packageName = Some (mkEntry v ttl).

(** The upstream call succeeds and gives [v] as the version field. *)
Definition upstreamGives (w : World) (packageName : string) (v : JsValue) : Prop :=
  exists status data,
    network w (registryUrl packageName) = Responds status (Some data)
    /\ (200 <= status <= 299)%Z
    /\ property data "version" = Some v.

(** The environment [w] with another content of the store. *)
Definition withKV (kv : gmap string KVEntry) (w : World) : World :=
  mkWorld kv (KV_get_throws w) (KV_put_throws w) (network w)
          (effects w) (console w).

(** An environment where no call fails on its own, with a fresh trace. *)
Definition quiet (kv : gmap string KVEntry) (net : string -> FetchResult) : World :=
  mkWorld kv (fun _ => false) (fun _ _ => false) net [] [].

(** A GET request for a path of the service. *)
Definition GET (segments : list string) (q : option string) : Request :=
  mkRequest "GET" (URL.mkURL serviceOrigin segments q None).

(** The store of the specification's examples. *)
Definition asarStore : gmap string KVEntry := {["asar" := mkEntry "4.0.1" None]}.

Definition unreachable : string -> FetchResult := fun _ => Rejects.
Definition answers (status : Z) (body : option JsValue) : string -> FetchResult :=
  fun _ => Responds status body.


(** *** The outcomes of the lookup *)

(** What the read of line 30 gives when it does not throw: the stored
    string, or null. *)
Definition stored (w : World) (packageName : string) : JsValue :=
  match KV w !! packageName with
  | Some e => JsString (value e)
  | None => JsNull
  end.

(** The store has no version for the package: no entry, or an empty one. *)
Definition miss (w : World) (packageName : string) : Prop :=
  KV w !! packageName = None \/ cached w packageName "".

(** The upstream call ends in the exception [e]: the call is rejected, or
    the answer is ok and its body is not JSON, or is JSON of which no
    property can be read (null). *)
Definition upstreamThrows (w : World) (packageName : string) (e : Exn) : Prop :=
  (network w (registryUrl packageName) = Rejects /\ e = NetworkError)
  \/ exists status body,
       network w (registryUrl packageName) = Responds status body
       /\ (200 <= status <= 299)%Z
       /\ ((body = None /\ e = SyntaxError)
           \/ exists data, body = Some data /\ property data "version" = None
                           /\ e = TypeError).

(** The upstream call gives no version: the answer is not ok, or the
    version field of its body is absent or falsy. *)
Definition upstreamGivesNone (w : World) (packageName : string) : Prop :=
  exists status body,
    network w (registryUrl packageName) = Responds status body
    /\ (~ (200 <= status <= 299)%Z
        \/ ((200 <= status <= 299)%Z
            /\ exists data v, body = Some data /\ property data "version" = Some v
                              /\ ToBoolean v = false)).

(** The lookup of lines 30 to 62 throws [e]: at the read, at the upstream
    call after a miss, or at the write of the version that the upstream
    gave. *)
Definition lookupThrows (w : World) (packageName : string) (e : Exn) : Prop :=
  (KV_get_throws w packageName = true /\ e = KVError)
  \/ (KV_get_throws w packageName = false /\ miss w packageName
      /\ (upstreamThrows w packageName e
          \/ exists v, upstreamGives w packageName v /\ ToBoolean v = true
                       /\ KV_put_throws w packageName v = true /\ e = KVError)).

(** The ways in which the lookup ends: its outcome, the store it leaves
    and the calls it made. *)
Inductive lookup (w : World) (packageName : string)
  : Outcome JsValue -> gmap string KVEntry -> list Effect -> Prop :=
| lookup_read_throws :
    KV_get_throws w packageName = true ->
    lookup w packageName (Throw KVError) (KV w) [KV_get packageName]
| lookup_hit v :
    KV_get_throws w packageName = false ->
    cached w packageName v -> v <> "" ->
    lookup w packageName (Normal (JsString v)) (KV w) [KV_get packageName]
| lookup_upstream_throws e :
    KV_get_throws w packageName = false ->
    miss w packageName -> upstreamThrows w packageName e ->
    lookup w packageName (Throw e) (KV w)
           [KV_get packageName; Fetch_url (registryUrl packageName)]
| lookup_unresolved :
    KV_get_throws w packageName = false ->
    miss w packageName -> upstreamGivesNone w packageName ->
    lookup w packageName (Normal (stored w packageName)) (KV w)
           [KV_get packageName; Fetch_url (registryUrl packageName)]
| lookup_resolved v :
    KV_get_throws w packageName = false ->
    miss w packageName ->
    upstreamGives w packageName v -> ToBoolean v = true ->
    KV_put_throws w packageName v = false ->
    lookup w packageName (Normal v)
           (<[packageName := mkEntry (ToString v) (Some 600%Z)]> (KV w))
           [KV_get packageName; Fetch_url (registryUrl packageName);
            KV_put packageName v (Some 600%Z)]
| lookup_write_throws v :
    KV_get_throws w packageName = false ->
    miss w packageName ->
    upstreamGives w packageName v -> ToBoolean v = true ->
    KV_put_throws w packageName v = true ->
    lookup w packageName (Throw KVError) (KV w)
           [KV_get packageName; Fetch_url (registryUrl packageName);
            KV_put packageName v (Some 600%Z)].

(** The line that the catch block writes to the console. *)
Definition caught (packageName : string) (e : Exn) : LogEntry :=
  Warn ("Error looking up package version for " ++ packageName ++ ":") (ArgError e).

(** The URL text of the redirect for a version whose text a URL keeps. *)
Definition versionedLocation (packageName version search : string) : string :=
  serviceOrigin ++ "/" ++ packageName ++ "/v" ++ version ++ "/index.html" ++ search.

(** *** The other variant *)

(** The calls that the other variant makes on a request. *)
Definition variantCalls (request : Request) (w : World) : list Effect :=
  drop (length (effects w)) (effects (Variant.fetch request w).2).

(** The write with which the other variant starts. *)
Definition fixedWrite : Effect := KV_put "asar" (JsString "4.0.1") None.

(** The store after that write. *)
Definition fixedStore (w : World) : gmap string KVEntry :=
  <["asar" := mkEntry "4.0.1" None]> (KV w).

(** *** The upstream registry and the console *)

Definition registryOrigin : string := "https://registry.npmjs.org".

(** The lines that the handler writes to the console on a request. *)
Definition consoleLines (request : Request) (w : World) : list LogEntry :=
  drop (length (console w)) (console (fetch request w).2).

Definition isWarn (l : LogEntry) : bool :=
  match l with Warn _ _ => true | Info _ => false end.

(** A version is obtained for the package: the read gives one that is not
    empty, or it gives none and the upstream gives one that is written to
    the store. *)
Definition served (w : World) (packageName : string) : Prop :=
  KV_get_throws w packageName = false
  /\ ((exists v, cached w packageName v /\ v <> "")
      \/ (miss w packageName
          /\ exists v, upstreamGives w packageName v /\ ToBoolean v = true
                       /\ KV_put_throws w packageName v = false)).
(** * Verification *)

(** ** Strings *)

Lemma append_cons c (a b : string) : String c a ++ b = String c (a ++ b).
Proof. reflexivity. Qed.

Lemma append_assoc (a b c : string) : (a ++ b) ++ c = a ++ b ++ c.
Proof. induction a as [|x a IH]; [done|]. by rewrite !append_cons, IH. Qed.

Lemma append_nil_r (a : string) : a ++ "" = a.
Proof. induction a as [|x a IH]; [done|]. by rewrite append_cons, IH. Qed.

Lemma append_nonempty_r (a b : string) : b <> "" -> a ++ b <> "".
Proof. destruct a; [done|]. by rewrite append_cons. Qed.

Lemma length_append (a b : string) :
  String.length (a ++ b) = String.length a + String.length b.
Proof. induction a as [|c a IH]; [done|]. rewrite append_cons. simpl. by rewrite IH. Qed.

(** [stripPrefix] removes exactly a prefix. *)
Lemma stripPrefix_Some pre s r : stripPrefix pre s = Some r <-> s = pre ++ r.
Proof.
  revert s. induction pre as [|c pre IH]; intros s; simpl.
  - split; [intros [= ->]|intros ->]; reflexivity.
  - destruct s as [|c' s]; [split; discriminate|].
    destruct (Ascii.eqb_spec c c') as [->|Hne].
    + rewrite IH. split; [intros ->|intros [= ->]]; reflexivity.
    + split; [discriminate|]. intros [= ? ?]. congruence.
Qed.

Lemma forallS_append p a b : forallS p (a ++ b) = forallS p a && forallS p b.
Proof.
  induction a as [|c a IH]; [done|]. rewrite append_cons. simpl.
  by rewrite IH, andb_assoc.
Qed.

Lemma forallS_impl (p q : ascii -> bool) s :
  (forall c, p c = true -> q c = true) -> forallS p s = true -> forallS q s = true.
Proof.
  intros Hpq. induction s as [|c s IH]; [done|]. simpl.
  intros [Hc Hs]%andb_prop. by rewrite (Hpq c Hc), IH.
Qed.

Lemma takeWhileS_dropWhileS p s : takeWhileS p s ++ dropWhileS p s = s.
Proof.
  induction s as [|c s IH]; simpl; [done|].
  destruct (p c); [|done]. by rewrite append_cons, IH.
Qed.

Lemma takeWhileS_forallS p s : forallS p (takeWhileS p s) = true.
Proof.
  induction s as [|c s IH]; [done|]. simpl.
  destruct (p c) eqn:E; [|done]. simpl. by rewrite E.
Qed.

Lemma dropWhileS_forallS p s : forallS p s = true -> dropWhileS p s = "" /\ takeWhileS p s = s.
Proof.
  induction s as [|c s IH]; simpl; [done|].
  destruct (p c); simpl; [|done]. intros H. destruct (IH H) as [-> ->]. done.
Qed.

Lemma dropWhileS_not_forallS p s : forallS p s = false -> exists c r, dropWhileS p s = String c r.
Proof.
  induction s as [|c s IH]; simpl; [done|].
  destruct (p c); simpl; [auto|eauto].
Qed.

(** A run of characters of a class, up to a character outside it. *)
Lemma span_append p a b :
  forallS p a = true -> (b = "" \/ exists c b', b = String c b' /\ p c = false) ->
  takeWhileS p (a ++ b) = a /\ dropWhileS p (a ++ b) = b.
Proof.
  intros Ha Hb. induction a as [|c a IH].
  - change ("" ++ b) with b. destruct Hb as [->|(c & b' & -> & Hc)]; [done|].
    simpl. by rewrite Hc.
  - rewrite append_cons. simpl in *. apply andb_prop in Ha as [Hc Ha].
    rewrite Hc. destruct (IH Ha) as [-> ->]. done.
Qed.

Lemma substring_0_length s : substring 0 (String.length s) s = s.
Proof. induction s; simpl; congruence. Qed.

Lemma substring_0_append (a b : string) :
  substring 0 (String.length a) (a ++ b) = a.
Proof. induction a as [|c a IH]; [by destruct b|]. simpl. by rewrite IH. Qed.

Lemma substring_skip (a b : string) k n :
  substring (String.length a + k) n (a ++ b) = substring k n b.
Proof. induction a as [|c a IH]; [done|]. simpl. by rewrite IH. Qed.


(** ** The matcher *)

Local Arguments Nat.eqb : simpl never.
Local Arguments substring : simpl never.

(** Decide the comparisons of indices that the progress tests leave. *)
Ltac eqb_nat :=
  repeat match goal with
  | |- context [Nat.eqb ?a ?b] =>
      first [ replace (Nat.eqb a b) with true by (symmetry; apply Nat.eqb_eq; lia)
            | replace (Nat.eqb a b) with false by (symmetry; apply Nat.eqb_neq; lia) ]
  end.

(** One round of the quantifier. *)
Lemma RepeatMatcher_S m gs fuel min max x c :
  RepeatMatcher m gs (S fuel) min max x c =
  match max with
  | Some 0 => c x
  | _ =>
      let d : MatcherContinuation := fun y =>
        if Nat.eqb min 0 && Nat.eqb (endIndex y) (endIndex x)
        then None
        else RepeatMatcher m gs fuel (Nat.pred min) (decr max) y c in
      let xr := clearCaptures gs x in
      if Nat.eqb min 0 then
        match m xr d with
        | Some z => Some z
        | None => c x
        end
      else m xr d
  end.
Proof. reflexivity. Qed.

(** A character class at the end of the input, and at a character. *)
Lemma CSM_nil p i caps c : CharacterSetMatcher p (mkState i "" caps) c = None.
Proof. reflexivity. Qed.

Lemma CSM_cons p i ch s caps c :
  CharacterSetMatcher p (mkState i (String ch s) caps) c
  = if p ch then c (mkState (S i) s caps) else None.
Proof. reflexivity. Qed.

Lemma matcher_Char ch input x c :
  matcher (Char ch) input x c = CharacterSetMatcher (Ascii.eqb ch) x c.
Proof. reflexivity. Qed.

Lemma matcher_AssertStart input i s caps c :
  matcher AssertStart input (mkState i s caps) c =
  if Nat.eqb i 0 then c (mkState i s caps) else None.
Proof. reflexivity. Qed.

Lemma matcher_AssertEnd input i s caps c :
  matcher AssertEnd input (mkState i s caps) c =
  match s with EmptyString => c (mkState i s caps) | String _ _ => None end.
Proof. reflexivity. Qed.

Lemma matcher_Seq r1 r2 input x c :
  matcher (Seq r1 r2) input x c = matcher r1 input x (fun y => matcher r2 input y c).
Proof. reflexivity. Qed.

Lemma matcher_Alt r1 r2 input x c :
  matcher (Alt r1 r2) input x c =
  match matcher r1 input x c with Some z => Some z | None => matcher r2 input x c end.
Proof. reflexivity. Qed.

Lemma matcher_Group n r input i s caps c :
  matcher (Group n r) input (mkState i s caps) c =
  matcher r input (mkState i s caps) (fun y =>
    c (mkState (endIndex y) (rest y)
         (<[n := Some (substring i (endIndex y - i) input)]> (captures y)))).
Proof. reflexivity. Qed.

(** [r?]: one round of [r] that consumes something, else nothing. *)
Lemma matcher_Opt_at r input i s caps caps' c :
  captures (clearCaptures (groupsOf r) (mkState i s caps)) = caps' ->
  matcher (Opt r) input (mkState i s caps) c =
  match matcher r input (mkState i s caps')
          (fun y => if Nat.eqb (endIndex y) i then None else c y) with
  | Some z => Some z
  | None => c (mkState i s caps)
  end.
Proof. intros <-. reflexivity. Qed.

(** A literal matches when it is a prefix of what is left. *)
Lemma matcher_Lit input k : forall s c0 i r caps,
  matcher (Lit c0 s) input (mkState i r caps) k =
  match stripPrefix (String c0 s) r with
  | Some r' => k (mkState (i + String.length (String c0 s)) r' caps)
  | None => None
  end.
Proof.
  induction s as [|c1 s IH]; intros c0 i r caps.
  - cbn [Lit matcher]. unfold CharacterSetMatcher. simpl.
    destruct r as [|c' r]; [done|]. destruct (Ascii.eqb c0 c'); [|done].
    unfold advance. simpl. by rewrite Nat.add_1_r.
  - cbn [Lit matcher]. unfold CharacterSetMatcher at 1. simpl rest.
    destruct r as [|c' r]; [done|]. cbn [stripPrefix]. destruct (Ascii.eqb c0 c'); [|done].
    unfold advance. simpl endIndex; simpl captures. rewrite IH.
    simpl String.length.
    by replace (S i + S (String.length s)) with (i + S (S (String.length s))) by lia.
Qed.

(** A character class under a star takes the longest run of the class,
    when the continuation fails wherever the class could go on: giving back
    characters does not help. *)
Lemma RepeatMatcher_class (p : ascii -> bool) (c : MatcherContinuation) caps :
  (forall ch s' i, p ch = true -> c (mkState i (String ch s') caps) = None) ->
  forall s fuel i,
    String.length s < fuel ->
    RepeatMatcher (CharacterSetMatcher p) [] fuel 0 None (mkState i s caps) c
    = c (mkState (i + String.length (takeWhileS p s)) (dropWhileS p s) caps).
Proof.
  intros Hc s. induction s as [|ch s IH]; intros fuel i Hfuel.
  - destruct fuel; [simpl in Hfuel; lia|]. cbn. by rewrite Nat.add_0_r.
  - destruct fuel; [simpl in Hfuel; lia|].
    rewrite RepeatMatcher_S. cbv zeta.
    unfold CharacterSetMatcher, clearCaptures, advance. simpl rest. simpl endIndex. simpl captures.
    simpl takeWhileS. simpl dropWhileS.
    destruct (p ch) eqn:Hp.
    + replace (S i =? i)%nat with false by (symmetry; apply Nat.eqb_neq; lia).
      simpl andb. simpl Nat.pred.
      rewrite IH by (simpl in Hfuel; lia).
      rewrite (Hc ch s i Hp). simpl String.length.
      replace (S i + String.length (takeWhileS p s))
        with (i + S (String.length (takeWhileS p s))) by lia.
      rewrite Hp. simpl. by destruct (c _).
    + simpl. rewrite Hp. by rewrite Nat.add_0_r.
Qed.

(** [p*] and [p+] for a pattern [r] that is a character class [p]. *)
Lemma matcher_Star_class input (p : ascii -> bool) r (c : MatcherContinuation) caps s i :
  (matcher r input = CharacterSetMatcher p) -> groupsOf r = [] ->
  (forall ch s' i, p ch = true -> c (mkState i (String ch s') caps) = None) ->
    matcher (Star r) input (mkState i s caps) c
    = c (mkState (i + String.length (takeWhileS p s)) (dropWhileS p s) caps).
Proof.
  intros Hr Hg Hc. unfold Star. cbn [matcher]. rewrite Hr, Hg.
  apply RepeatMatcher_class; [done|]. simpl. lia.
Qed.

Lemma matcher_Plus_class input (p : ascii -> bool) r (c : MatcherContinuation) caps s i :
  (matcher r input = CharacterSetMatcher p) -> groupsOf r = [] ->
  (forall ch s' i, p ch = true -> c (mkState i (String ch s') caps) = None) ->
    matcher (Plus r) input (mkState i s caps) c
    = match takeWhileS p s with
      | EmptyString => None
      | String _ _ =>
          c (mkState (i + String.length (takeWhileS p s)) (dropWhileS p s) caps)
      end.
Proof.
  intros Hr Hg Hc. unfold Plus. cbn [matcher]. rewrite Hr, Hg.
  cbn [rest Nat.add]. rewrite RepeatMatcher_S. cbv zeta.
  change (1 =? 0)%nat with false. cbn [andb Nat.pred decr fmap option_fmap option_map].
  unfold clearCaptures. cbn [foldr endIndex rest captures].
  destruct s as [|ch s]; [reflexivity|].
  rewrite CSM_cons. cbn [takeWhileS dropWhileS]. destruct (p ch) eqn:Hp; [|reflexivity].
  rewrite RepeatMatcher_class; [|done|simpl; lia].
  do 2 f_equal. simpl. lia.
Qed.


(** ** The pattern of the worker *)

(** The second alternative, an optional slash, followed by the end. *)
Lemma optional_slash_end input i tail caps :
  match matcher (Opt (Char "/")) input (mkState i tail caps)
          (fun y => if Nat.eqb (endIndex y) i then None
                    else matcher AssertEnd input y Some) with
  | Some z => Some z
  | None => matcher AssertEnd input (mkState i tail caps) Some
  end =
  match tail with
  | EmptyString => Some (mkState i "" caps)
  | String c EmptyString =>
      if Ascii.eqb "/" c then Some (mkState (S i) "" caps) else None
  | _ => None
  end.
Proof.
  rewrite (matcher_Opt_at _ _ _ _ _ caps) by reflexivity.
  rewrite matcher_Char. destruct tail as [|c t].
  - rewrite CSM_nil. cbn [endIndex]. eqb_nat. reflexivity.
  - rewrite CSM_cons. cbn [endIndex]. eqb_nat.
    rewrite !matcher_AssertEnd.
    destruct (Ascii.eqb "/" c); [|by destruct t].
    by destruct t.
Qed.

(** A tail starts with a slash, when it is not empty. *)
Lemma tailShape_notSlash ch s : notSlash ch = true -> tailShape (String ch s) = None.
Proof.
  unfold notSlash, tailShape. intros H. cbn [stripPrefix].
  destruct (Ascii.eqb "/" ch); [done|]. by destruct s.
Qed.

(** A tail with a second group is [/latest] followed by the group. *)
Lemma tailShape_Some_Some tail t :
  tailShape tail = Some (Some t) -> tail = "/latest" ++ t.
Proof.
  unfold tailShape. destruct (stripPrefix "/latest" tail) as [r|] eqn:E.
  - apply stripPrefix_Some in E. subst tail. destruct r as [|c r]; [done|].
    destruct (_ && _); [|done]. by intros [= <-].
  - destruct tail as [|c [|c' t']]; try done. by destruct (Ascii.eqb "/" c).
Qed.

(** The accepted tails are the four of the specification. *)
Lemma tailShape_inv tail g2 :
  tailShape tail = Some g2 ->
  tail = "" \/ tail = "/" \/ tail = "/latest" \/ exists r, tail = "/latest/" ++ r.
Proof.
  unfold tailShape. destruct (stripPrefix "/latest" tail) as [r|] eqn:E.
  - apply stripPrefix_Some in E. subst tail. destruct r as [|c r]; [auto|].
    destruct (Ascii.eqb_spec "/" c) as [<-|]; [|done]. intros _. do 3 right. by exists r.
  - destruct tail as [|c [|c' t']]; [auto| |done].
    destruct (Ascii.eqb_spec "/" c) as [<-|]; [auto|done].
Qed.

(** After the first segment the pattern accepts the tails of [tailShape]:
    it consumes all of the tail and sets group 2. *)
Lemma tail_match input i a b tail :
  matcher tailRegex input (mkState i tail [a; b; None]) Some =
  match tailShape tail with
  | Some g2 =>
      Some (mkState (i + String.length tail) ""
              [a; b; (fun _ => substring (i + 7) (String.length tail - 7) input) <$> g2])
  | None => None
  end.
Proof.
  unfold tailRegex, tailShape. rewrite matcher_Seq.
  rewrite (matcher_Opt_at _ _ _ _ _ [a; b; None]) by reflexivity.
  rewrite matcher_Alt, matcher_Seq, matcher_Lit.
  destruct (stripPrefix "/latest" tail) as [r|] eqn:E.
  - apply stripPrefix_Some in E. subst tail.
    rewrite (matcher_Opt_at _ _ _ _ _ [a; b; None]) by reflexivity.
    rewrite matcher_Group, matcher_Seq, matcher_Char.
    destruct r as [|c r].
    + rewrite CSM_nil. cbn [endIndex rest]. simpl String.length. eqb_nat.
      rewrite matcher_AssertEnd. reflexivity.
    + rewrite CSM_cons. destruct (Ascii.eqb_spec "/" c) as [<-|Hne].
      * rewrite (matcher_Star_class _ notLineTerminator) ; [|reflexivity..|].
        -- cbn [endIndex rest captures]. simpl String.length. eqb_nat.
           rewrite matcher_AssertEnd. cbn [andb].
           destruct (forallS notLineTerminator r) eqn:Hall.
           ++ destruct (dropWhileS_forallS _ _ Hall) as [-> ->].
              cbn [fmap option_fmap option_map].
              change (<[2:=?x]> [a; b; None]) with [a; b; x].
              replace (S (i + 7) + String.length r - (i + 7)) with (S (String.length r)) by lia.
              replace (S (i + 7) + String.length r) with (i + (8 + String.length r)) by lia.
              reflexivity.
           ++ destruct (dropWhileS_not_forallS _ _ Hall) as (c' & r' & ->).
              rewrite matcher_AssertEnd. rewrite optional_slash_end. reflexivity.
        -- intros ch s' j _. cbn [endIndex rest captures].
           rewrite matcher_AssertEnd. by repeat case_match.
      * cbn [endIndex]. simpl String.length. eqb_nat. rewrite matcher_AssertEnd.
        rewrite optional_slash_end. reflexivity.
  - rewrite optional_slash_end. destruct tail as [|c [|c' t]]; try reflexivity.
    + by rewrite Nat.add_0_r.
    + destruct (Ascii.eqb "/" c); [|done]. simpl. by rewrite Nat.add_1_r.
Qed.

(** The pattern at index 0. *)
Lemma pathRegex_at_0 input :
  matcher pathRegex input (mkState 0 input [None; None; None]) Some =
  match pathMatchSpec input with
  | Some m => Some (mkState (String.length input) "" (<[0 := None]> m))
  | None => None
  end.
Proof.
  unfold pathRegex, pathMatchSpec.
  rewrite matcher_Seq, matcher_AssertStart. change (0 =? 0)%nat with true. cbv iota.
  rewrite matcher_Seq, matcher_Char.
  destruct input as [|c s]; [reflexivity|].
  rewrite CSM_cons. destruct (Ascii.eqb "/" c) eqn:Hc; [|reflexivity].
  rewrite matcher_Seq, matcher_Group.
  rewrite (matcher_Plus_class _ notSlash); [|reflexivity..|].
  - destruct (takeWhileS notSlash s) as [|n0 name] eqn:Hname; [reflexivity|].
    cbn [endIndex rest captures].
    change (<[1:=?x]> [None; None; None]) with [None; x; None].
    change (matcher (Seq ?a AssertEnd)) with (matcher tailRegex).
    rewrite tail_match.
    pose proof (takeWhileS_dropWhileS notSlash s) as Hs. rewrite Hname in Hs.
    remember (dropWhileS notSlash s) as tail eqn:Htail. clear Htail Hname.
    destruct (tailShape tail) as [g2|] eqn:Ht; [|reflexivity].
    change (<[0:=None]> [?a; ?b; ?c]) with [None; b; c].
    subst s. f_equal. f_equal.
    + cbn [String.length]. rewrite length_append. cbn [String.length]. lia.
    + f_equal. f_equal.
      * f_equal.
        replace (1 + String.length (String n0 name) - 1)
          with (String.length (String n0 name)) by lia.
        change (substring 1 ?n (String c ?s)) with (substring 0 n s).
        apply substring_0_append.
      * f_equal. destruct g2 as [t|]; [|reflexivity].
        apply tailShape_Some_Some in Ht. subst tail. cbn [fmap option_fmap option_map]. f_equal.
        change (String c (String n0 name ++ "/latest" ++ t))
          with ((String c (String n0 name)) ++ "/latest" ++ t).
        replace (1 + String.length (String n0 name) + 7)
          with (String.length (String c (String n0 name)) + 7) by (simpl; lia).
        rewrite substring_skip. rewrite length_append.
        change 7 with (String.length "/latest" + 0) at 1. rewrite substring_skip.
        replace (String.length "/latest" + String.length t - 7)
          with (String.length t) by (simpl; lia).
        apply substring_0_length.
  - intros ch s' i Hp. cbn [endIndex rest captures].
    change (<[1:=?x]> [None; None; None]) with [None; x; None].
    change (matcher (Seq ?a AssertEnd)) with (matcher tailRegex).
    rewrite tail_match. by rewrite tailShape_notSlash.
Qed.

(** The pattern is anchored: it matches at no later index. *)
Lemma search_later input suffix i : search pathRegex input (S i) suffix = None.
Proof.
  revert i. induction suffix as [|c s IH]; intros i; simpl; [done|]. apply IH.
Qed.

(** The match array of the pattern is the one computed by [pathMatchSpec],
    for every string. *)
Theorem String_match_pathRegex pathname :
  String_match pathname pathRegex = pathMatchSpec pathname.
Proof.
  unfold String_match, exec.
  destruct pathname as [|c s]; [reflexivity|].
  cbn [search]. change (replicate _ None) with [None; None; None : option string].
  rewrite pathRegex_at_0, search_later.
  destruct (pathMatchSpec (String c s)) as [m|] eqn:E; [|reflexivity].
  cbn [endIndex captures]. rewrite Nat.sub_0_r, substring_0_length.
  unfold pathMatchSpec in E. repeat case_match; simplify_eq; reflexivity.
Qed.


(** ** The shapes of a path *)

(** A segment followed by an accepted tail matches, with the segment as
    the first group. *)
Lemma pathMatchSpec_shape name tail g2 :
  segment name -> tailShape tail = Some g2 ->
  pathMatchSpec ("/" ++ name ++ tail) = Some [Some ("/" ++ name ++ tail); Some name; g2].
Proof.
  intros [Hne Hall] Ht. unfold pathMatchSpec.
  change ("/" ++ name ++ tail) with (String "/" (name ++ tail)).
  change (Ascii.eqb "/" "/") with true. cbv iota.
  destruct (span_append notSlash name tail Hall) as [-> ->].
  - destruct tail as [|c tail']; [by left|right]. exists c, tail'. split; [done|].
    destruct (notSlash c) eqn:Hc; [|done]. by rewrite tailShape_notSlash in Ht.
  - rewrite Ht. by destruct name.
Qed.

(** A match is a recognized path, and its first group is the name. *)
Lemma pathMatchSpec_inv pathname m :
  pathMatchSpec pathname = Some m ->
  exists name, recognized pathname name /\ m !! 1 = Some (Some name).
Proof.
  unfold pathMatchSpec. destruct pathname as [|c s]; [done|].
  destruct (Ascii.eqb_spec "/" c) as [<-|]; [|done].
  destruct (takeWhileS notSlash s) as [|n0 name] eqn:Hn; [done|].
  destruct (tailShape (dropWhileS notSlash s)) as [g2|] eqn:Ht; [|done].
  intros [= <-]. exists (String n0 name). split; [|done].
  assert (Hseg : segment (String n0 name)).
  { split; [done|]. rewrite <- Hn. apply takeWhileS_forallS. }
  rewrite <- (takeWhileS_dropWhileS notSlash s), Hn.
  apply tailShape_inv in Ht as [->|[->|[->|[r ->]]]].
  - replace (String n0 name ++ "") with (String n0 name); [by apply shape_bare|].
    by rewrite append_nil_r.
  - by apply (shape_slash (String n0 name)).
  - by apply (shape_latest (String n0 name)).
  - by apply (shape_latest_rest (String n0 name)).
Qed.

(** The pattern matches exactly the paths that [pathMatchSpec] accepts. *)
Lemma matchesPath_shape name tail g2 :
  segment name -> tailShape tail = Some g2 -> matchesPath ("/" ++ name ++ tail) name.
Proof.
  intros Hseg Ht. eexists. split.
  - rewrite String_match_pathRegex. by apply pathMatchSpec_shape.
  - reflexivity.
Qed.

(** The name that a match extracts is the run up to the next slash. *)
Lemma matchesPath_name s name :
  matchesPath (String "/" s) name -> name = takeWhileS notSlash s.
Proof.
  intros (m & Hm & Hg). rewrite String_match_pathRegex in Hm.
  unfold pathMatchSpec in Hm. change (Ascii.eqb "/" "/") with true in Hm. cbv iota in Hm.
  destruct (takeWhileS notSlash s) as [|c n]; [done|].
  destruct (tailShape _); [|done]. injection Hm as <-.
  by injection Hg as <-.
Qed.

Lemma String_match_recognized pathname m :
  String_match pathname pathRegex = Some m ->
  exists name, recognized pathname name /\ match_group m 1 = JsString name.
Proof.
  rewrite String_match_pathRegex. intros (name & Hrec & Hm)%pathMatchSpec_inv.
  exists name. split; [done|]. unfold match_group. by rewrite Hm.
Qed.

Lemma recognized_segment pathname name : recognized pathname name -> segment name.
Proof. by destruct 1. Qed.

Lemma matchesPath_segment pathname name : matchesPath pathname name -> segment name.
Proof.
  intros (m & Hm & Hg). apply String_match_recognized in Hm as (name' & Hrec & Hg').
  rewrite Hg in Hg'. injection Hg' as ->. by apply recognized_segment in Hrec.
Qed.

(** A recognized path splits at its first slash after the name; what is
    left is one of the four tails. *)
Lemma recognized_span pathname name :
  recognized pathname name ->
  exists s, pathname = String "/" s /\ name = takeWhileS notSlash s
    /\ (dropWhileS notSlash s = "" \/ dropWhileS notSlash s = "/"
        \/ dropWhileS notSlash s = "/latest"
        \/ exists r, dropWhileS notSlash s = "/latest/" ++ r).
Proof.
  assert (Hspan : forall name tail, segment name ->
            (tail = "" \/ exists b', tail = String "/" b') ->
            takeWhileS notSlash (name ++ tail) = name
            /\ dropWhileS notSlash (name ++ tail) = tail).
  { intros n t [_ Hall] Ht. apply span_append; [done|].
    destruct Ht as [->|[b' ->]]; [by left|right; by exists "/"%char, b']. }
  destruct 1 as [name Hs|name Hs|name Hs|name r Hs].
  - exists name. rewrite <- (append_nil_r name) at 2 3 4 5 6.
    destruct (Hspan name "" Hs) as [-> ->]; [by left|]. rewrite append_nil_r. auto.
  - exists (name ++ "/"). destruct (Hspan name "/" Hs) as [-> ->]; [right; by exists ""|]. auto.
  - exists (name ++ "/latest").
    destruct (Hspan name "/latest" Hs) as [-> ->]; [right; by exists "latest"|]. auto 6.
  - exists (name ++ "/latest/" ++ r).
    destruct (Hspan name ("/latest/" ++ r) Hs) as [-> ->]; [right; by exists ("latest/" ++ r)|].
    split; [done|]. split; [done|]. do 3 right. by exists r.
Qed.

(** On a path without line breaks, each of the four shapes matches. *)
Lemma recognized_matches pathname name :
  recognized pathname name ->
  forallS notLineTerminator pathname = true ->
  matchesPath pathname name.
Proof.
  destruct 1 as [name Hs|name Hs|name Hs|name rest Hs]; intros Hlt.
  - rewrite <- (append_nil_r name) at 1. by apply (matchesPath_shape name "" None).
  - by apply (matchesPath_shape name "/" None).
  - by apply (matchesPath_shape name "/latest" None).
  - apply (matchesPath_shape name ("/latest/" ++ rest) (Some ("/" ++ rest))); [done|].
    unfold tailShape.
    change (stripPrefix "/latest" ("/latest/" ++ rest)) with (Some (String "/" rest)).
    change (Ascii.eqb "/" "/") with true. cbn [andb].
    change ("/" ++ name ++ "/latest/" ++ rest)
      with (String "/" (name ++ "/latest/" ++ rest)) in Hlt.
    cbn [forallS] in Hlt. apply andb_prop in Hlt as [_ Hlt].
    rewrite forallS_append in Hlt. apply andb_prop in Hlt as [_ Hlt].
    change ("/latest/" ++ rest) with ("/latest/" ++ rest) in Hlt.
    rewrite forallS_append in Hlt. apply andb_prop in Hlt as [_ ->]. reflexivity.
Qed.

(** A path of no recognized shape is not matched. *)
Lemma unrecognized_no_match pathname :
  (forall name, ~ recognized pathname name) ->
  String_match pathname pathRegex = None.
Proof.
  intros Hno. destruct (String_match pathname pathRegex) as [m|] eqn:Hm; [|done].
  apply String_match_recognized in Hm as (name & Hrec & _). by destruct (Hno name).
Qed.

(** ** The URL of the redirect *)

Module URLFacts.
Import URL.

(** *** Text that the parser keeps *)

(** Percent-encoding leaves a character outside the set as it is. *)
Lemma percentEncode_kept inSet c : inSet c = false -> percentEncode inSet c = String c "".
Proof. unfold percentEncode. by intros ->. Qed.

Lemma percentEncodeAll_kept inSet s :
  forallS (fun c => negb (inSet c)) s = true -> percentEncodeAll inSet s = s.
Proof.
  induction s as [|c s IH]; [done|]. simpl. intros [Hc Hs]%andb_prop.
  apply negb_true_iff in Hc. rewrite percentEncode_kept by done.
  rewrite append_cons. by rewrite IH.
Qed.

Lemma filterString_id p s : forallS p s = true -> filterString p s = s.
Proof.
  induction s as [|c s IH]; [done|]. simpl. intros [-> Hs]%andb_prop. by rewrite IH.
Qed.

(** Nothing is trimmed from a string whose end is not trimmed. *)
Lemma trimEnd_append a b : b <> "" -> trimEnd b = b -> trimEnd (a ++ b) = a ++ b.
Proof.
  intros Hne Hb. induction a as [|c a IH]; [done|].
  rewrite append_cons. simpl. rewrite IH.
  pose proof (append_nonempty_r a b Hne). by destruct (a ++ b).
Qed.

(** What a kept character is not. *)
Lemma pathKept_spec c :
  pathKept c = true ->
  inPathSet c = false /\ Ascii.eqb c "/" = false /\ Ascii.eqb c "\" = false
  /\ Ascii.eqb c "?" = false /\ Ascii.eqb c "#" = false /\ isTabOrNewline c = false.
Proof.
  unfold pathKept. intros [[H1 H2]%andb_prop H3]%andb_prop.
  apply negb_true_iff in H1, H2, H3. repeat split; try done.
  - destruct (Ascii.eqb_spec c "?") as [->|]; [|done]. by vm_compute in H1.
  - destruct (Ascii.eqb_spec c "#") as [->|]; [|done]. by vm_compute in H1.
  - unfold inPathSet, inQuerySet, inC0ControlSet in H1.
    apply orb_false_elim in H1 as [H1 _]. apply orb_false_elim in H1 as [H1 _].
    apply orb_false_elim in H1 as [H1 _]. apply Nat.leb_gt in H1.
    unfold isTabOrNewline, oneOf. simpl.
    repeat (rewrite (proj2 (Nat.eqb_neq _ _)) by lia). reflexivity.
Qed.

Lemma queryKept_spec c :
  queryKept c = true -> inSpecialQuerySet c = false /\ isTabOrNewline c = false.
Proof.
  unfold queryKept. intros H1%negb_true_iff. split; [done|].
  unfold inSpecialQuerySet, inQuerySet, inC0ControlSet in H1.
  apply orb_false_elim in H1 as [H1 _]. apply orb_false_elim in H1 as [H1 _].
  apply orb_false_elim in H1 as [H1 _]. apply Nat.leb_gt in H1.
  unfold isTabOrNewline, oneOf. simpl.
  repeat (rewrite (proj2 (Nat.eqb_neq _ _)) by lia). reflexivity.
Qed.

Lemma pathKept_notSlash c : pathKept c = true -> notSlash c = true.
Proof.
  intros (_ & H & _)%pathKept_spec. unfold notSlash.
  by rewrite Ascii.eqb_sym, H.
Qed.

Lemma pathKept_notLineTerminator c : pathKept c = true -> notLineTerminator c = true.
Proof.
  intros (_ & _ & _ & _ & _ & H)%pathKept_spec.
  unfold notLineTerminator, isLineTerminator.
  destruct (Ascii.eqb_spec c "010") as [->|]; [done|].
  destruct (Ascii.eqb_spec c "013") as [->|]; done.
Qed.

Lemma removeTabAndNewline_pathKept s :
  forallS (fun c => pathKept c || Ascii.eqb c "/") s = true -> removeTabAndNewline s = s.
Proof.
  intros H. apply filterString_id. induction s as [|c s IH]; [done|].
  simpl in *. apply andb_prop in H as [Hc Hs]. rewrite IH by done.
  apply orb_prop in Hc as [Hc|Hc].
  - apply pathKept_spec in Hc as (_ & _ & _ & _ & _ & ->). done.
  - apply Ascii.eqb_eq in Hc as ->. done.
Qed.

Lemma removeTabAndNewline_queryKept s :
  forallS queryKept s = true -> removeTabAndNewline s = s.
Proof.
  intros H. apply filterString_id. revert H. apply forallS_impl.
  intros c (_ & ->)%queryKept_spec. done.
Qed.

(** *** The path state on the path of the redirect *)

(** The path state copies a run of kept characters into the buffer. *)
Lemma pathState_kept seg : forall rest buffer p,
  forallS pathKept seg = true ->
  pathState (seg ++ rest) buffer p = pathState rest (buffer ++ seg) p.
Proof.
  induction seg as [|c seg IH]; intros rest buffer p H.
  - by rewrite append_nil_r.
  - simpl in H. apply andb_prop in H as [Hc Hs].
    apply pathKept_spec in Hc as (Hset & H1 & H2 & H3 & H4 & _).
    rewrite append_cons. cbn [pathState]. unfold isSlash. rewrite H1, H2, H3, H4. cbn [orb].
    rewrite percentEncode_kept by done. rewrite IH by done.
    by rewrite append_assoc.
Qed.

(** A slash ends the segment. *)
Lemma pathState_slash rest buffer p :
  pathState (String "/" rest) buffer p = pathState rest "" (pushSegment buffer p true).
Proof. reflexivity. Qed.

(** A segment that is no dot segment is appended. *)
Lemma pushSegment_plain buffer p atSlash :
  isSingleDot buffer = false -> isDoubleDot buffer = false ->
  pushSegment buffer p atSlash = (p ++ [buffer])%list.
Proof. unfold pushSegment. by intros -> ->. Qed.

(** A segment that starts with v is no dot segment. *)
Lemma not_dot_v s : isSingleDot (String "v" s) = false /\ isDoubleDot (String "v" s) = false.
Proof.
  unfold isSingleDot, isDoubleDot. split; apply bool_decide_eq_false;
    intros H; repeat (apply elem_of_cons in H as [H|H]; [discriminate|]);
    by apply elem_of_nil in H.
Qed.

(** The path of the redirect parses into its three segments. *)
Lemma new_redirectPath base packageName version :
  packageName <> "" ->
  urlSegment packageName = true ->
  forallS pathKept version = true ->
  new ("/" ++ packageName ++ "/v" ++ version ++ "/index.html") base
  = Some (mkURL base [packageName; "v" ++ version; "index.html"] None None).
Proof.
  intros Hne [[Hp Hd1]%andb_prop Hd2]%andb_prop Hv.
  apply negb_true_iff in Hd1, Hd2.
  unfold new.
  change (trimStart ("/" ++ ?x)) with ("/" ++ x).
  assert (trimEnd ("/" ++ packageName ++ "/v" ++ version ++ "/index.html")
          = "/" ++ packageName ++ "/v" ++ version ++ "/index.html") as ->.
  { do 4 (apply trimEnd_append; [by repeat apply append_nonempty_r|]). reflexivity. }
  rewrite removeTabAndNewline_pathKept.
  2:{ rewrite !forallS_append.
      rewrite (forallS_impl pathKept _ packageName), (forallS_impl pathKept _ version);
        first [reflexivity | done | by intros c ->]. }
  change ("/" ++ ?x) with (String "/" x). change (Ascii.eqb "/" "/") with true. cbv iota.
  destruct packageName as [|c0 pkg] eqn:Hpkg; [done|]. rewrite <- Hpkg in *.
  assert (beginsWith isSlash (packageName ++ "/v" ++ version ++ "/index.html") = false) as ->.
  { rewrite Hpkg in *. rewrite append_cons. simpl in Hp |- *.
    apply andb_prop in Hp as [(_ & H1 & H2 & _)%pathKept_spec _].
    unfold isSlash. by rewrite H1, H2. }
  rewrite pathState_kept by done. change ("/v" ++ ?x) with (String "/" ("v" ++ x)).
  rewrite pathState_slash, pushSegment_plain by done.
  change ("v" ++ ?x ++ ?y) with (("v" ++ x) ++ y).
  rewrite pathState_kept
    by (change ("v" ++ version) with (String "v" version); simpl; by rewrite Hv).
  change ("/index.html") with (String "/" ("index.html" ++ "")).
  rewrite pathState_slash.
  rewrite pushSegment_plain by apply not_dot_v.
  rewrite pathState_kept by reflexivity.
  reflexivity.
Qed.

Lemma trimEnd_cons c s :
  isC0ControlOrSpace c = false -> exists t, trimEnd (String c s) = String c t.
Proof. intros Hc. cbn [trimEnd]. rewrite Hc. destruct (trimEnd s); eauto. Qed.

(** A path-absolute input whose first segment starts with a kept character
    is parsed. *)
Lemma new_path_absolute c s base :
  pathKept c = true -> exists u, new (String "/" (String c s)) base = Some u.
Proof.
  intros Hc. pose proof Hc as (Hset & H1 & H2 & _ & _ & Htab)%pathKept_spec.
  assert (Hsp : isC0ControlOrSpace c = false).
  { unfold inPathSet, inQuerySet in Hset.
    apply orb_false_elim in Hset as [Hset _]. apply orb_false_elim in Hset as [Hc0 Hq].
    unfold inC0ControlSet in Hc0. apply orb_false_elim in Hc0 as [Hc0 _].
    apply Nat.leb_gt in Hc0. unfold oneOf in Hq. cbn [existsb] in Hq.
    apply orb_false_elim in Hq as [Hq _]. apply Nat.eqb_neq in Hq.
    unfold isC0ControlOrSpace. apply Nat.leb_gt. lia. }
  unfold new. change (trimStart (String "/" ?x)) with (String "/" x).
  destruct (trimEnd_cons c s Hsp) as [t Ht].
  assert (trimEnd (String "/" (String c s)) = String "/" (String c t)) as ->.
  { change (trimEnd (String "/" (String c s)))
      with (match trimEnd (String c s) with
            | EmptyString => if isC0ControlOrSpace "/" then "" else String "/" ""
            | t => String "/" t end).
    by rewrite Ht. }
  unfold removeTabAndNewline. cbn [filterString].
  change (isTabOrNewline "/") with false. rewrite Htab. cbn [negb].
  change (Ascii.eqb "/" "/") with true. cbv iota. cbn [beginsWith].
  unfold isSlash. rewrite H1, H2. cbn [orb].
  destruct (pathState _ _ _) as [[p q] f]. eauto.
Qed.

(** *** The search setter and the serializer *)

(** Setting [search] to the [search] of a parsed URL gives that query. *)
Lemma query_set_search u u0 :
  urlQuery (query u0) = true ->
  match query (set_search u (search u0)) with
  | Some q => "?" ++ q
  | None => ""
  end = search u0.
Proof.
  unfold search. destruct (query u0) as [[|c q]|]; [done| |done].
  intros Hq. change ("?" ++ String c q) with (String "?" (String c q)).
  unfold set_search. change (Ascii.eqb "?" "?") with true. cbv iota zeta. cbn [query].
  rewrite removeTabAndNewline_queryKept by done.
  rewrite percentEncodeAll_kept by done. reflexivity.
Qed.

(** The [search] getter after the setter. *)
Lemma search_set_search u u0 :
  urlQuery (query u0) = true -> search (set_search u (search u0)) = search u0.
Proof.
  intros Hq. unfold search at 2 3.
  destruct (query u0) as [[|c q]|]; [done| |done].
  change ("?" ++ String c q) with (String "?" (String c q)).
  unfold set_search, search. change (Ascii.eqb "?" "?") with true. cbv iota zeta. cbn [query].
  rewrite removeTabAndNewline_queryKept by done.
  rewrite percentEncodeAll_kept by done. reflexivity.
Qed.

(** The serialization after the setter. *)
Lemma toString_set_search u u0 :
  urlQuery (query u0) = true ->
  toString (set_search u (search u0))
  = origin u ++ pathname u ++ search u0
      ++ match fragment u with Some f => "#" ++ f | None => "" end.
Proof.
  intros Hq. unfold toString. rewrite query_set_search by done.
  by destruct (search u0).
Qed.

(** *** What the parser yields *)

(** The characters of a percent-encoded byte are kept. *)
Lemma hexDigit_kept n :
  n < 16 -> pathKept (hexDigit n) = true /\ queryKept (hexDigit n) = true.
Proof.
  intros H. do 16 (destruct n as [|n]; [by vm_compute|]). lia.
Qed.

Lemma code_bounded c : code c / 16 < 16 /\ code c mod 16 < 16.
Proof.
  pose proof (nat_ascii_bounded c) as H. unfold code. split.
  - apply Nat.Div0.div_lt_upper_bound. lia.
  - apply Nat.mod_upper_bound. lia.
Qed.

Lemma percentEncode_pathKept c :
  isSlash c = false -> forallS pathKept (percentEncode inPathSet c) = true.
Proof.
  intros Hs. unfold percentEncode. destruct (inPathSet c) eqn:Hc.
  - destruct (code_bounded c) as [H1 H2]. cbn [forallS].
    rewrite (proj1 (hexDigit_kept _ H1)), (proj1 (hexDigit_kept _ H2)). reflexivity.
  - cbn [forallS]. unfold pathKept. rewrite Hc. unfold isSlash in Hs.
    apply orb_false_elim in Hs as [-> ->]. reflexivity.
Qed.

Lemma percentEncode_queryKept c :
  forallS queryKept (percentEncode inSpecialQuerySet c) = true.
Proof.
  unfold percentEncode. destruct (inSpecialQuerySet c) eqn:Hc.
  - destruct (code_bounded c) as [H1 H2]. cbn [forallS].
    rewrite (proj2 (hexDigit_kept _ H1)), (proj2 (hexDigit_kept _ H2)). reflexivity.
  - cbn [forallS]. unfold queryKept. by rewrite Hc.
Qed.

Lemma Forall_removelast {A} (P : A -> Prop) (l : list A) :
  Forall P l -> Forall P (removelast l).
Proof.
  induction 1 as [|x l Hx Hl IH]; [constructor|].
  simpl. destruct l; [constructor|]. by constructor.
Qed.

(** The path state keeps its segments well-formed. *)
Lemma pushSegment_wf buffer p atSlash :
  forallS pathKept buffer = true ->
  Forall (fun s => urlSegment s = true) p ->
  Forall (fun s => urlSegment s = true) (pushSegment buffer p atSlash).
Proof.
  intros Hb Hp. unfold pushSegment, shorten.
  destruct (isDoubleDot buffer) eqn:Hd2.
  { destruct atSlash; [by apply Forall_removelast|].
    apply Forall_app. split; [by apply Forall_removelast|]. by repeat constructor. }
  destruct (isSingleDot buffer) eqn:Hd1.
  { destruct atSlash; [done|]. apply Forall_app. split; [done|]. by repeat constructor. }
  apply Forall_app. split; [done|]. repeat constructor.
  unfold urlSegment. by rewrite Hb, Hd1, Hd2.
Qed.

Lemma queryState_wf s : forall q,
  forallS queryKept q = true -> forallS queryKept (queryState s q).1 = true.
Proof.
  induction s as [|c s IH]; intros q Hq; [done|]. cbn [queryState].
  destruct (Ascii.eqb c "#"); [done|]. apply IH.
  by rewrite forallS_append, Hq, percentEncode_queryKept.
Qed.

Lemma pathState_wf s : forall buffer p,
  forallS pathKept buffer = true ->
  Forall (fun s => urlSegment s = true) p ->
  Forall (fun s => urlSegment s = true) (pathState s buffer p).1.1
  /\ urlQuery (pathState s buffer p).1.2 = true.
Proof.
  induction s as [|c s IH]; intros buffer p Hb Hp; cbn [pathState].
  - split; [by apply pushSegment_wf|done].
  - destruct (isSlash c) eqn:Hs.
    { apply IH; [done|by apply pushSegment_wf]. }
    destruct (Ascii.eqb c "?").
    { pose proof (queryState_wf s "" eq_refl) as Hq.
      destruct (queryState s "") as [q f]. split; [by apply pushSegment_wf|done]. }
    destruct (Ascii.eqb c "#").
    { split; [by apply pushSegment_wf|done]. }
    apply IH; [|done]. by rewrite forallS_append, Hb, percentEncode_pathKept.
Qed.

(** What the parser yields is text that it keeps. *)
Lemma new_parsedURL input base u :
  new input base = Some u -> parsedURL u.
Proof.
  unfold new. destruct (removeTabAndNewline _) as [|c s]; [done|].
  destruct (Ascii.eqb c "/"); [|done]. destruct (beginsWith isSlash s); [done|].
  pose proof (pathState_wf s "" [] eq_refl (List.Forall_nil _)) as H.
  destruct (pathState s "" []) as [[p q] f]. by intros [= <-].
Qed.

(** The path of a URL with such segments holds no line break. *)
Lemma pathname_no_line_terminator u :
  Forall (fun s => urlSegment s = true) (path u) ->
  forallS notLineTerminator (pathname u) = true.
Proof.
  unfold pathname. induction 1 as [|seg p Hseg Hp IH]; [done|].
  assert (Hs : forallS notLineTerminator ("/" ++ seg) = true).
  { change ("/" ++ seg) with (String "/" seg). cbn [forallS].
    change (notLineTerminator "/") with true. cbn [andb].
    unfold urlSegment in Hseg. apply andb_prop in Hseg as [[Hk _]%andb_prop _].
    revert Hk. apply forallS_impl, pathKept_notLineTerminator. }
  cbn [map String.concat]. destruct (map _ p) eqn:E; [done|].
  rewrite <- E in *. rewrite forallS_append in Hs. rewrite !forallS_append, Hs, IH. reflexivity.
Qed.

End URLFacts.

(** For a segment and a version that the parser keeps, and the search of
    a parsed URL, the URL of the redirect is the concatenation of its parts. *)
Lemma redirectUrl_stable packageName version u0 :
  packageName <> "" ->
  urlSegment packageName = true ->
  forallS pathKept version = true ->
  urlQuery (URL.query u0) = true ->
  exists u,
    redirectUrl packageName (JsString version) (URL.search u0) = Some u
    /\ URL.toString u
       = serviceOrigin ++ "/" ++ packageName ++ "/v" ++ version ++ "/index.html"
           ++ URL.search u0.
Proof.
  intros Hne Hp Hv Hq. unfold redirectUrl, redirectPath. cbn [ToString].
  rewrite URLFacts.new_redirectPath by done. cbn [mbind option_bind].
  eexists. split; [reflexivity|].
  rewrite URLFacts.toString_set_search by done. cbn [URL.origin URL.fragment].
  f_equal. rewrite append_nil_r. unfold URL.pathname.
  cbn [URL.path map String.concat].
  change ("" ++ ?x) with x. rewrite !append_assoc. reflexivity.
Qed.

(** ** Runs of the handler *)

(** Reduce what the unfolded monad leaves: projections and tests. *)
Ltac run :=
  cbn [fst snd KV KV_get_throws KV_put_throws network effects console
       negb andb orb ToBoolean value String.eqb].

Create HintDb worker.
#[local] Hint Unfold bind ret throw try_catch modelled record log console_info
  console_warn env_KV_get env_KV_put global_fetch fetch_request
  Response_json get_property Response_ok Response_status : worker.

Ltac unfold_monad := repeat autounfold with worker.

(** Enter the matched branch of [fetch] on a request that [matches]. *)
Ltac enter Hmatch :=
  let m := fresh "m" in
  let Hm := fresh "Hm" in
  let Hg := fresh "Hg" in
  destruct Hmatch as (m & Hm & Hg);
  unfold calls, fetch; rewrite Hm, Hg; cbn [ToString];
  unfold resolveVersion; unfold_monad; run.

(** The [ok] test of a status between 200 and 299. *)
Lemma status_ok status : (200 <= status <= 299)%Z ->
  ((200 <=? status)%Z && (status <=? 299)%Z) = true.
Proof. intros [H1 H2]. apply andb_true_intro. split; by apply Z.leb_le. Qed.

(** A string that is not empty is truthy. *)
Lemma negb_empty v : v <> "" -> negb (String.eqb v "") = true.
Proof. intros H. apply negb_true_iff. by apply String.eqb_neq. Qed.

Section Matched.
Variables (w : World) (request : Request) (packageName : string).
Hypothesis Hmatch : matches request packageName.

(** A hit: the version of the store is used. *)
Lemma hit_run v :
  KV_get_throws w packageName = false -> cached w packageName v -> v <> "" ->
  (fetch request w).1
  = match redirectUrl packageName (JsString v) (URL.search (url request)) with
    | Some u => Normal (Response_redirect (URL.toString u) 302)
    | None => Unmodelled
    end
  /\ calls request w = [KV_get packageName]
  /\ KV (fetch request w).2 = KV w.
Proof.
  intros Hget [ttl Hkv] Hv. enter Hmatch.
  rewrite Hget, Hkv. cbn [ToBoolean value]. rewrite (negb_empty v Hv). run.
  destruct (redirectUrl _ _ _); run; rewrite drop_app_length; done.
Qed.

(** A read that throws: the catch block, then the last line. *)
Lemma read_failure_run :
  KV_get_throws w packageName = true ->
  (fetch request w).1 = Normal (Response_fetched request)
  /\ calls request w = [KV_get packageName; Fetch_request request]
  /\ KV (fetch request w).2 = KV w.
Proof.
  intros Hget. enter Hmatch. rewrite Hget. run.
  rewrite <- app_assoc, drop_app_length. done.
Qed.

(** No version in the store, one from the upstream, and the write is done. *)
Lemma upstream_run v :
  KV_get_throws w packageName = false ->
  KV w !! packageName = None \/ cached w packageName "" ->
  upstreamGives w packageName v -> ToBoolean v = true ->
  KV_put_throws w packageName v = false ->
  (fetch request w).1
  = match redirectUrl packageName v (URL.search (url request)) with
    | Some u => Normal (Response_redirect (URL.toString u) 302)
    | None => Unmodelled
    end
  /\ calls request w = [KV_get packageName; Fetch_url (registryUrl packageName);
                        KV_put packageName v (Some 600%Z)]
  /\ KV (fetch request w).2 = <[packageName := mkEntry (ToString v) (Some 600%Z)]> (KV w).
Proof.
  intros Hget Hmiss (status & data & Hnet & Hok & Hprop) Hv Hput. enter Hmatch.
  rewrite Hget.
  assert (ToBoolean (match KV w !! packageName with
                     | Some e => JsString (value e) | None => JsNull end) = false) as ->.
  { destruct Hmiss as [->|[ttl ->]]; reflexivity. }
  cbn [negb]. run. rewrite Hnet. run. rewrite (status_ok _ Hok). run.
  rewrite Hprop. run. rewrite Hv. run. rewrite Hput. run.
  destruct (redirectUrl _ _ _); run; rewrite <- !app_assoc, drop_app_length; done.
Qed.

(** No version in the store, one from the upstream, and the write throws. *)
Lemma write_failure_run v :
  KV_get_throws w packageName = false ->
  KV w !! packageName = None \/ cached w packageName "" ->
  upstreamGives w packageName v -> ToBoolean v = true ->
  KV_put_throws w packageName v = true ->
  (fetch request w).1 = Normal (Response_fetched request)
  /\ calls request w = [KV_get packageName; Fetch_url (registryUrl packageName);
                        KV_put packageName v (Some 600%Z); Fetch_request request]
  /\ KV (fetch request w).2 = KV w.
Proof.
  intros Hget Hmiss (status & data & Hnet & Hok & Hprop) Hv Hput. enter Hmatch.
  rewrite Hget.
  assert (ToBoolean (match KV w !! packageName with
                     | Some e => JsString (value e) | None => JsNull end) = false) as ->.
  { destruct Hmiss as [->|[ttl ->]]; reflexivity. }
  cbn [negb]. run. rewrite Hnet. run. rewrite (status_ok _ Hok). run.
  rewrite Hprop. run. rewrite Hv. run. rewrite Hput. run.
  rewrite <- !app_assoc, drop_app_length; done.
Qed.
End Matched.

(** The handler on a request that matches, by the outcome of the lookup. *)
Lemma fetch_matched request packageName w :
  matches request packageName ->
  fetch request w =
  match resolveVersion packageName w with
  | (Normal version, w1) =>
      (match redirectUrl packageName version (URL.search (url request)) with
       | Some u => Normal (Response_redirect (URL.toString u) 302)
       | None => Unmodelled
       end, w1)
  | (Throw e, w1) =>
      (fetch_request request)
        ((console_warn ("Error looking up package version for " ++ packageName ++ ":")
           (ArgError e) w1).2)
  | (Unmodelled, w1) => (Unmodelled, w1)
  end.
Proof.
  intros (m & Hm & Hg). unfold fetch. rewrite Hm, Hg. cbn [ToString].
  unfold bind at 1, try_catch, bind at 1.
  destruct (resolveVersion packageName w) as [[version|e|] w1]; [|reflexivity..].
  unfold modelled, bind, ret. by destruct (redirectUrl _ _ _).
Qed.

(** On a path that does not match, the handler answers at once. *)
Lemma unmatched_run request w :
  String_match (URL.pathname (url request)) pathRegex = None ->
  fetch request w = (Normal (Response_redirect serviceOrigin 302), w).
Proof. intros H. unfold fetch. by rewrite H. Qed.

Lemma drop_all {A} (l : list A) : drop (length l) l = [].
Proof. by rewrite drop_ge. Qed.

(** Every run makes one of seven sequences of calls. *)
Lemma calls_shape request w :
  calls request w = []
  \/ exists packageName,
       calls request w = [KV_get packageName]
       \/ calls request w = [KV_get packageName; Fetch_request request]
       \/ calls request w = [KV_get packageName; Fetch_url (registryUrl packageName)]
       \/ calls request w = [KV_get packageName; Fetch_url (registryUrl packageName);
                             Fetch_request request]
       \/ exists v,
            upstreamGives w packageName v /\ ToBoolean v = true
            /\ (calls request w = [KV_get packageName; Fetch_url (registryUrl packageName);
                                   KV_put packageName v (Some 600%Z)]
                \/ calls request w = [KV_get packageName; Fetch_url (registryUrl packageName);
                                      KV_put packageName v (Some 600%Z);
                                      Fetch_request request]).
Proof.
  unfold calls, fetch.
  destruct (String_match _ _) as [m|]; [right|left; apply drop_all].
  exists (ToString (match_group m 1)). set (packageName := ToString (match_group m 1)).
  unfold resolveVersion. unfold_monad. run.
  destruct (KV_get_throws w packageName); run.
  { right; left. by rewrite <- !app_assoc, drop_app_length. }
  destruct (negb (ToBoolean _)); run.
  2:{ left. destruct (redirectUrl _ _ _); run; by rewrite drop_app_length. }
  destruct (network w (registryUrl packageName)) as [|status body] eqn:Hnet; run.
  { do 3 right; left. by rewrite <- !app_assoc, drop_app_length. }
  destruct ((200 <=? status)%Z && (status <=? 299)%Z) eqn:Hok; run.
  2:{ do 2 right; left.
      destruct (redirectUrl _ _ _); run; by rewrite <- !app_assoc, drop_app_length. }
  destruct body as [data|]; run.
  2:{ do 3 right; left. by rewrite <- !app_assoc, drop_app_length. }
  destruct (property data "version") as [v|] eqn:Hprop; run.
  2:{ do 3 right; left. by rewrite <- !app_assoc, drop_app_length. }
  destruct (ToBoolean v) eqn:Hv; run.
  2:{ do 2 right; left.
      destruct (redirectUrl _ _ _); run; by rewrite <- !app_assoc, drop_app_length. }
  do 4 right. exists v. split; [|split; [done|]].
  { exists status, data. apply andb_prop in Hok as [H1%Z.leb_le H2%Z.leb_le]. done. }
  destruct (KV_put_throws w packageName v); run.
  - right. by rewrite <- !app_assoc, drop_app_length.
  - left. destruct (redirectUrl _ _ _); run; by rewrite <- !app_assoc, drop_app_length.
Qed.

(** ** Requests with a parsed URL *)

(** The package name of a match is a segment. *)
Lemma matches_segment request packageName :
  matches request packageName -> segment packageName.
Proof. apply matchesPath_segment. Qed.

(** The package name of a parsed URL is its first segment. *)
Lemma parsed_package_name request packageName :
  parsedURL (url request) -> matches request packageName ->
  urlSegment packageName = true.
Proof.
  intros [Hp _] Hm. unfold matches, URL.pathname in Hm.
  destruct Hp as [|seg p Hseg Hp].
  { by destruct Hm as (m & Hm & _). }
  cbn [map] in Hm.
  assert (Hns : forallS notSlash seg = true).
  { unfold urlSegment in Hseg. apply andb_prop in Hseg as [[Hk _]%andb_prop _].
    revert Hk. apply forallS_impl, URLFacts.pathKept_notSlash. }
  assert (exists tail, String.concat "" (String.append "/" seg :: map (String.append "/") p)
                       = String "/" (seg ++ tail)
                       /\ (tail = "" \/ exists c b', tail = String c b' /\ notSlash c = false))
    as (tail & Heq & Htail).
  { cbn [String.concat]. destruct p as [|seg' p]; cbn [map].
    - exists "". rewrite append_nil_r. auto.
    - exists ("/" ++ seg' ++ match map (String.append "/") p with
                              | [] => "" | _ => String.concat "" (map (String.append "/") p) end).
      split; [|right; by eexists _, _].
      change ("" ++ ?x) with x.
      destruct (map (append "/") p); [by rewrite append_nil_r|reflexivity]. }
  rewrite Heq in Hm. apply matchesPath_name in Hm as ->.
  by destruct (span_append notSlash seg tail Hns Htail) as [-> _].
Qed.

(** On a parsed URL, every path of the four shapes matches. *)
Lemma parsed_recognized_matches request name :
  parsedURL (url request) ->
  recognized (URL.pathname (url request)) name ->
  matches request name.
Proof.
  intros [Hp _] Hrec. apply recognized_matches; [done|].
  by apply URLFacts.pathname_no_line_terminator.
Qed.

(** A GET request with well-formed segments and query has a parsed URL. *)
Lemma parsedURL_GET segments q :
  forallb urlSegment segments = true -> urlQuery q = true ->
  parsedURL (url (GET segments q)).
Proof.
  intros Hs Hq. split; [|done]. cbn [url GET URL.path].
  apply Forall_forall. intros s Hin. rewrite forallb_forall in Hs.
  apply Hs. by apply list_elem_of_In.
Qed.

(** On a request with a parsed URL the URL of the redirect is within the
    model, whatever the version. *)
Lemma redirectUrl_modelled request packageName version search :
  parsedURL (url request) -> matches request packageName ->
  exists u, redirectUrl packageName version search = Some u.
Proof.
  intros Hurl Hmatch.
  pose proof (parsed_package_name _ _ Hurl Hmatch) as Hseg.
  destruct (matches_segment _ _ Hmatch) as [Hne _].
  destruct packageName as [|c pkg]; [done|].
  unfold urlSegment in Hseg. apply andb_prop in Hseg as [[Hk _]%andb_prop _].
  cbn [forallS] in Hk. apply andb_prop in Hk as [Hc _].
  unfold redirectUrl, redirectPath.
  destruct (URLFacts.new_path_absolute c (pkg ++ "/v" ++ ToString version ++ "/index.html")
              serviceOrigin Hc) as [u Hu].
  change ("/" ++ String c pkg ++ ?x) with (String "/" (String c (pkg ++ x))).
  rewrite Hu. cbn [mbind option_bind]. eauto.
Qed.



(** * The claims of the specification *)

(** ** The path matcher *)

(** C4.  For every segment [name] (one or more characters, none a slash),
    the pattern matches each of the four shapes [/name], [/name/],
    [/name/latest] and [/name/latest/rest], and the package name it
    extracts, [match[1]], is [name] exactly.  The [rest] of the fourth shape
    holds no line break, as no path of a parsed URL does: on the path of
    every request with a parsed URL the four shapes match as they are.  The
    matcher is the function [String_match] of the path alone. *)
Theorem C4_matcher_extracts_name (name : string) :
  segment name ->
  matchesPath ("/" ++ name) name
  /\ matchesPath ("/" ++ name ++ "/") name
  /\ matchesPath ("/" ++ name ++ "/latest") name
  /\ (forall rest, forallS notLineTerminator rest = true ->
        matchesPath ("/" ++ name ++ "/latest/" ++ rest) name)
  /\ (forall request, parsedURL (url request) ->
        recognized (URL.pathname (url request)) name -> matches request name).
Proof.
  intros Hseg. repeat split.
  - rewrite <- (append_nil_r name) at 1. by apply (matchesPath_shape name "" None).
  - by apply (matchesPath_shape name "/" None).
  - by apply (matchesPath_shape name "/latest" None).
  - intros rest Hrest.
    apply (matchesPath_shape name ("/latest/" ++ rest) (Some ("/" ++ rest))); [done|].
    unfold tailShape.
    change (stripPrefix "/latest" ("/latest/" ++ rest)) with (Some (String "/" rest)).
    change (Ascii.eqb "/" "/") with true. cbn [andb]. by rewrite Hrest.
  - intros request. apply parsed_recognized_matches.
Qed.

Lemma C4_witness :
  segment "asar"
  /\ matchesPath "/asar" "asar"
  /\ matchesPath "/asar/" "asar"
  /\ matchesPath "/asar/latest" "asar"
  /\ matchesPath "/asar/latest/docs/api" "asar"
  /\ matches (GET ["asar"; "latest"; "docs"] None) "asar".
Proof.
  assert (H : segment "asar") by (split; [discriminate | reflexivity]).
  destruct (C4_matcher_extracts_name "asar" H) as (H1 & H2 & H3 & H4 & H5).
  split; [exact H|]. split; [exact H1|]. split; [exact H2|]. split; [exact H3|].
  split; [exact (H4 "docs/api" eq_refl)|].
  exact (H5 (GET ["asar"; "latest"; "docs"] None)
            (parsedURL_GET ["asar"; "latest"; "docs"] None eq_refl eq_refl)
            (shape_latest_rest "asar" "docs" H)).
Defined.

(** ** Paths that do not match *)

(** The versioned path of a redirect is not one of the four shapes. *)
Lemma versioned_path_unrecognized name :
  ~ recognized "/asar/v4.0.1/index.html" name.
Proof.
  intros (s & [= <-] & _ & [H|[H|[H|[r H]]]])%recognized_span; discriminate H.
Qed.

(** C5.  For every request whose path is not of a recognized shape, the
    handler answers with a 302 redirect to the root of the service; it does
    not pass the request through. *)
Theorem C5_unrecognized_path_redirects_to_root (w : World) (request : Request) :
  (forall name, ~ recognized (URL.pathname (url request)) name) ->
  (fetch request w).1
  = Normal (Response_redirect "https://packages.electronjs.org" 302).
Proof.
  intros Hno. by rewrite unmatched_run by by apply unrecognized_no_match.
Qed.

Lemma C5_witness :
  (fetch (GET ["asar"; "v4.0.1"; "index.html"] None) (quiet asarStore unreachable)).1
  = Normal (Response_redirect "https://packages.electronjs.org" 302).
Proof.
  exact (C5_unrecognized_path_redirects_to_root
           (quiet asarStore unreachable) (GET ["asar"; "v4.0.1"; "index.html"] None)
           versioned_path_unrecognized).
Defined.

(** C9.  For every request whose path is not of a recognized shape, the
    handler reads no cache entry, writes none and fetches nothing: it
    returns before any call, and leaves the environment as it was. *)
Theorem C9_unrecognized_path_has_no_effect (w : World) (request : Request) :
  (forall name, ~ recognized (URL.pathname (url request)) name) ->
  (fetch request w).2 = w /\ calls request w = [].
Proof.
  intros Hno. unfold calls.
  rewrite unmatched_run by by apply unrecognized_no_match.
  split; [reflexivity|]. apply drop_all.
Qed.

Lemma C9_witness :
  calls (GET ["asar"; "v4.0.1"; "index.html"] None) (quiet asarStore unreachable) = [].
Proof.
  exact (proj2 (C9_unrecognized_path_has_no_effect
                  (quiet asarStore unreachable)
                  (GET ["asar"; "v4.0.1"; "index.html"] None)
                  versioned_path_unrecognized)).
Defined.

(** ** The cache hit *)

(** The requests of the examples. *)
Lemma matches_asar_latest q : matches (GET ["asar"; "latest"] q) "asar".
Proof. exists [Some "/asar/latest"; Some "asar"; None]. by split. Qed.

(** C6.  For every request that matches and whose package name has a
    version in the cache that is not empty, the handler makes one call, the
    cache read, and none to the upstream registry, and answers with the 302
    redirect built from the cached version: to
    [/packageName/v<version>/index.html] on the service's origin, followed
    by the query string, when the URL of the request is a parsed one and the
    version is text that a URL keeps as it is. *)
Theorem C6_cache_hit_redirects (w : World) (request : Request)
    (packageName version : string) :
  matches request packageName ->
  KV_get_throws w packageName = false ->
  cached w packageName version ->
  version <> "" ->
  calls request w = [KV_get packageName]
  /\ KV (fetch request w).2 = KV w
  /\ (fetch request w).1
     = match redirectUrl packageName (JsString version) (URL.search (url request)) with
       | Some u => Normal (Response_redirect (URL.toString u) 302)
       | None => Unmodelled
       end
  /\ (parsedURL (url request) ->
      forallS pathKept version = true ->
      (fetch request w).1
      = Normal (Response_redirect
                  ("https://packages.electronjs.org" ++ "/" ++ packageName ++ "/v"
                     ++ version ++ "/index.html" ++ URL.search (url request)) 302)).
Proof.
  intros Hmatch Hget Hkv Hv.
  destruct (hit_run w request packageName Hmatch version Hget Hkv Hv) as (Hout & Hcalls & Hstore).
  repeat split; try done.
  intros Hurl Hver. rewrite Hout.
  destruct (redirectUrl_stable packageName version (url request)) as (u & -> & ->);
    try done.
  - by destruct (matches_segment _ _ Hmatch).
  - by apply (parsed_package_name request).
  - by destruct Hurl.
Qed.

Lemma C6_witness :
  calls (GET ["asar"; "latest"] None) (quiet asarStore unreachable) = [KV_get "asar"]
  /\ (fetch (GET ["asar"; "latest"] None) (quiet asarStore unreachable)).1
     = Normal (Response_redirect
                 "https://packages.electronjs.org/asar/v4.0.1/index.html" 302).
Proof.
  pose proof (C6_cache_hit_redirects
                (quiet asarStore unreachable) (GET ["asar"; "latest"] None)
                "asar" "4.0.1" (matches_asar_latest None) eq_refl
                (ex_intro _ None eq_refl) ltac:(discriminate)) as (H1 & _ & _ & H2).
  split; [exact H1|].
  exact (H2 (parsedURL_GET ["asar"; "latest"] None eq_refl eq_refl) eq_refl).
Defined.

(** ** The query string *)

(** C8.  For every request that matches, with a parsed URL, and is answered
    by a redirect, the query string of the request is carried into the URL of
    the redirect as it is: that URL is the serialization of a URL whose
    search is the search of the request, placed after origin and path. *)
Theorem C8_query_is_preserved (w : World) (request : Request)
    (packageName location : string) (status : Z) :
  matches request packageName ->
  parsedURL (url request) ->
  (fetch request w).1 = Normal (Response_redirect location status) ->
  exists u,
    location = URL.toString u
    /\ URL.search u = URL.search (url request)
    /\ location
       = URL.origin u ++ URL.pathname u ++ URL.search (url request)
           ++ match URL.fragment u with Some f => "#" ++ f | None => "" end.
Proof.
  intros Hmatch [_ Hq]. rewrite (fetch_matched _ _ _ Hmatch).
  destruct (resolveVersion packageName w) as [[version|e|] w1]; [|done..].
  cbn [fst]. unfold redirectUrl.
  destruct (URL.new _ _) as [u0|]; [|done]. cbn [mbind option_bind].
  intros [= <- <-]. exists (URL.set_search u0 (URL.search (url request))).
  split; [done|]. split; [by apply URLFacts.search_set_search|].
  rewrite URLFacts.toString_set_search by done. by destruct (URL.search (url request)).
Qed.

Lemma C8_witness :
  exists u,
    "https://packages.electronjs.org/asar/v4.0.1/index.html?foo=bar" = URL.toString u
    /\ URL.search u = "?foo=bar"
    /\ "https://packages.electronjs.org/asar/v4.0.1/index.html?foo=bar"
       = URL.origin u ++ URL.pathname u ++ "?foo=bar"
           ++ match URL.fragment u with Some f => "#" ++ f | None => "" end.
Proof.
  exact (C8_query_is_preserved
           (quiet asarStore unreachable) (GET ["asar"; "latest"] (Some "foo=bar"))
           "asar" "https://packages.electronjs.org/asar/v4.0.1/index.html?foo=bar" 302
           (matches_asar_latest (Some "foo=bar"))
           (parsedURL_GET ["asar"; "latest"] (Some "foo=bar") eq_refl eq_refl) eq_refl).
Defined.

(** ** The upstream registry *)

Lemma matches_single name :
  segment name -> forall q, matches (GET [name] q) name.
Proof.
  intros Hseg q. unfold matches, GET, URL.pathname. cbn [url URL.path map String.concat].
  rewrite <- (append_nil_r name) at 1. by apply (matchesPath_shape name "" None).
Qed.

Lemma matches_foo q : matches (GET ["foo"] q) "foo".
Proof. by apply matches_single. Qed.

(** The body of the registry's answer for a package at a version. *)
Lemma upstreamGives_answers w packageName status data v :
  network w = answers status (Some data) ->
  (200 <= status <= 299)%Z -> property data "version" = Some v ->
  upstreamGives w packageName v.
Proof. intros Hnet Hok Hprop. exists status, data. by rewrite Hnet. Qed.

(** The write that throws: the upstream gives a version, the store takes
    none and the request is passed through. *)
Lemma C7_counterexample :
  let request := GET ["foo"] None in
  let w := mkWorld ∅ (fun _ => false) (fun _ _ => true)
             (answers 200 (Some (JsObject [("version", JsString "5.0.0")]))) [] [] in
  matches request "foo"
  /\ KV_get_throws w "foo" = false
  /\ KV w !! "foo" = None
  /\ upstreamGives w "foo" (JsString "5.0.0")
  /\ KV (fetch request w).2 !! "foo" = None
  /\ (fetch request w).1 = Normal (Response_fetched request).
Proof.
  intros request w. split; [apply matches_foo|]. split; [reflexivity|].
  split; [reflexivity|].
  split; [eapply upstreamGives_answers; [reflexivity|lia|reflexivity]|].
  split; vm_compute; reflexivity.
Qed.

(** C7.  Every request makes at most one cache read, at most one cache
    write and at most one upstream call; a cache write is made only after
    the upstream call succeeded with a version, and has a time-to-live of 600
    seconds.  For every request that matches, with no cache entry, when the
    upstream call succeeds and its body has a usable version field, the
    write of that version under the package name with that time-to-live is
    called.  When the write is done, the version is the entry of the package
    and the version of the redirect; when the write throws, the store is as
    before, the version is not used, and the request is passed through. *)
Theorem C7_upstream_version_is_cached (w : World) (request : Request) :
  (count isCacheRead (calls request w) <= 1
   /\ count isCacheWrite (calls request w) <= 1
   /\ count isUpstreamCall (calls request w) <= 1)
  /\ (forall key v ttl,
        In (KV_put key v ttl) (calls request w) ->
        ttl = Some 600%Z /\ upstreamGives w key v /\ ToBoolean v = true)
  /\ (forall packageName version,
        matches request packageName ->
        KV_get_throws w packageName = false ->
        KV w !! packageName = None ->
        upstreamGives w packageName (JsString version) ->
        version <> "" ->
        In (KV_put packageName (JsString version) (Some 600%Z)) (calls request w)
        /\ (KV_put_throws w packageName (JsString version) = false ->
            KV (fetch request w).2
            = <[packageName := mkEntry version (Some 600%Z)]> (KV w)
            /\ (fetch request w).1
               = match redirectUrl packageName (JsString version)
                         (URL.search (url request)) with
                 | Some u => Normal (Response_redirect (URL.toString u) 302)
                 | None => Unmodelled
                 end)
        /\ (KV_put_throws w packageName (JsString version) = true ->
            KV (fetch request w).2 = KV w
            /\ (fetch request w).1 = Normal (Response_fetched request))).
Proof.
  split; [|split].
  - destruct (calls_shape request w)
      as [->|(p & [->|[->|[->|[->|(v & _ & _ & [->| ->])]]]])]; cbn; lia.
  - intros key v ttl.
    destruct (calls_shape request w)
      as [->|(p & [->|[->|[->|[->|(v' & Hup & Hv & [->| ->])]]]])]; cbn;
      intros H; repeat (destruct H as [H|H]; [try discriminate H|]); try done;
      injection H as <- <- <-; done.
  - intros packageName version Hmatch Hget Hmiss Hup Hv.
    assert (Htrue : ToBoolean (JsString version) = true) by by apply negb_empty.
    destruct (KV_put_throws w packageName (JsString version)) eqn:Hput.
    + destruct (write_failure_run w request packageName Hmatch (JsString version))
        as (Hout & -> & Hstore); auto.
      split; [cbn; auto|done].
    + destruct (upstream_run w request packageName Hmatch (JsString version))
        as (Hout & -> & Hstore); auto.
      split; [cbn; auto|]. split; [|done]. intros _. by rewrite Hstore.
Qed.

Lemma C7_witness :
  let w := quiet ∅ (answers 200 (Some (JsObject [("name", JsString "foo");
                                                 ("version", JsString "5.0.0")]))) in
  KV (fetch (GET ["foo"] None) w).2 = {["foo" := mkEntry "5.0.0" (Some 600%Z)]}
  /\ (fetch (GET ["foo"] None) w).1
     = Normal (Response_redirect
                 "https://packages.electronjs.org/foo/v5.0.0/index.html" 302).
Proof.
  intros w.
  assert (Hup : upstreamGives w "foo" (JsString "5.0.0")).
  { eapply upstreamGives_answers; [reflexivity|lia|reflexivity]. }
  destruct (C7_upstream_version_is_cached w (GET ["foo"] None)) as (_ & _ & H).
  destruct (H "foo" "5.0.0" (matches_foo None) eq_refl eq_refl Hup ltac:(discriminate))
    as (_ & H2 & _).
  exact (H2 eq_refl).
Defined.

(** C10.  When the cache read gives the empty string for the package
    name, the handler goes on as for an absent entry: it makes the calls it
    makes when the entry is deleted, the first of them after the read being
    the upstream query, logs the same lines, and, when the upstream gives a
    version, answers the same. *)
Theorem C10_empty_entry_is_a_miss (w : World) (request : Request)
    (packageName : string) :
  matches request packageName ->
  KV_get_throws w packageName = false ->
  cached w packageName "" ->
  let miss := withKV (delete packageName (KV w)) w in
  calls request w = calls request miss
  /\ console (fetch request w).2 = console (fetch request miss).2
  /\ (exists more,
        calls request w
        = KV_get packageName :: Fetch_url (registryUrl packageName) :: more)
  /\ (forall v, upstreamGives w packageName v -> ToBoolean v = true ->
        (fetch request w).1 = (fetch request miss).1).
Proof.
  intros Hmatch Hget [ttl Hkv] miss.
  assert (Hmiss : KV miss !! packageName = None) by apply lookup_delete_eq.
  destruct Hmatch as (m & Hm & Hg).
  unfold calls, fetch. rewrite Hm, Hg. cbn [ToString].
  unfold resolveVersion. unfold_monad. run.
  subst miss. unfold withKV in *. run. cbn [KV] in Hmiss.
  rewrite Hget, Hkv, Hmiss. run.
  destruct (network w (registryUrl packageName)) as [|status body] eqn:Hnet; run.
  { rewrite <- !app_assoc, !drop_app_length. repeat split; eauto. }
  destruct ((200 <=? status)%Z && (status <=? 299)%Z) eqn:Hok; run.
  2:{ split; [|split; [|split]].
      - destruct (redirectUrl _ _ _), (redirectUrl _ _ _); run;
          by rewrite <- !app_assoc, !drop_app_length.
      - by destruct (redirectUrl _ _ _), (redirectUrl _ _ _).
      - destruct (redirectUrl _ _ _); run; rewrite <- !app_assoc, !drop_app_length; eauto.
      - intros v (st & data & Hn & Hr & _) _. rewrite Hnet in Hn. injection Hn as -> ->.
        apply status_ok in Hr. congruence. }
  destruct body as [data|]; run.
  2:{ rewrite <- !app_assoc, !drop_app_length. repeat split; eauto. }
  destruct (property data "version") as [v|] eqn:Hprop; run.
  2:{ rewrite <- !app_assoc, !drop_app_length. repeat split; eauto. }
  destruct (ToBoolean v) eqn:Hv; run.
  2:{ split; [|split; [|split]].
      - destruct (redirectUrl _ _ _), (redirectUrl _ _ _); run;
          by rewrite <- !app_assoc, !drop_app_length.
      - by destruct (redirectUrl _ _ _), (redirectUrl _ _ _).
      - destruct (redirectUrl _ _ _); run; rewrite <- !app_assoc, !drop_app_length; eauto.
      - intros v' (st & data' & Hn & _ & Hp) Hv'. rewrite Hnet in Hn.
        injection Hn as -> ->. congruence. }
  destruct (KV_put_throws w packageName v); run.
  { rewrite <- !app_assoc, !drop_app_length. repeat split; eauto. }
  destruct (redirectUrl _ _ _); run; rewrite <- !app_assoc, !drop_app_length;
    repeat split; eauto.
Qed.

Lemma C10_witness :
  let w := quiet {["foo" := mkEntry "" None]}
                 (answers 200 (Some (JsObject [("version", JsString "5.0.0")]))) in
  calls (GET ["foo"] None) w = calls (GET ["foo"] None) (quiet ∅ (network w))
  /\ exists more,
       calls (GET ["foo"] None) w
       = KV_get "foo" :: Fetch_url "https://registry.npmjs.org/@electron/foo/latest" :: more.
Proof.
  intros w.
  destruct (C10_empty_entry_is_a_miss w (GET ["foo"] None) "foo" (matches_foo None) eq_refl
              (ex_intro _ None eq_refl)) as (H1 & _ & H2 & _).
  split; [exact H1|exact H2].
Defined.

(** ** When no version is found *)

(** After a read that finds nothing and an upstream call that gives no
    version, the handler does not reach its last line: it goes on to build
    the redirect, with the text of null as the version. *)
Lemma unresolved_run (w : World) (request : Request) (packageName : string)
    (status : Z) (body : option JsValue) :
  matches request packageName ->
  parsedURL (url request) ->
  KV_get_throws w packageName = false ->
  KV w !! packageName = None ->
  network w (registryUrl packageName) = Responds status body ->
  ((200 <=? status)%Z && (status <=? 299)%Z = false
   \/ exists data v, body = Some data /\ property data "version" = Some v
                     /\ ToBoolean v = false) ->
  (fetch request w).1
  = Normal (Response_redirect
              ("https://packages.electronjs.org" ++ "/" ++ packageName
                 ++ "/vnull/index.html" ++ URL.search (url request)) 302).
Proof.
  intros Hmatch Hurl Hget Hkv Hnet Hfail.
  destruct (redirectUrl_stable packageName "null" (url request)) as (u & Hu & Hs);
    try done.
  { by destruct (matches_segment _ _ Hmatch). }
  { by apply (parsed_package_name request). }
  { by destruct Hurl. }
  change (redirectUrl packageName (JsString "null"))
    with (redirectUrl packageName JsNull) in Hu.
  enter Hmatch. rewrite Hget, Hkv. run. rewrite Hnet. run.
  destruct Hfail as [->|(data & v & -> & Hprop & Hv)]; run.
  - rewrite Hu. run. by rewrite Hs.
  - destruct (_ && _); run.
    + rewrite Hprop. run. rewrite Hv. run. rewrite Hu. run. by rewrite Hs.
    + rewrite Hu. run. by rewrite Hs.
Qed.

(** The other variant does not redirect without a version: a read that
    finds nothing ends at the last line. *)
Lemma variant_miss_passes_through (w : World) (request : Request)
    (packageName : string) :
  matches request packageName ->
  KV_put_throws w "asar" (JsString "4.0.1") = false ->
  KV_get_throws w packageName = false ->
  packageName <> "asar" ->
  KV w !! packageName = None ->
  (Variant.fetch request w).1 = Normal (Response_fetched request).
Proof.
  intros (m & Hm & Hg) Hput Hget Hne Hkv.
  unfold Variant.fetch. rewrite Hm, Hg. cbn [ToString]. unfold_monad. run.
  rewrite Hput. run. rewrite Hget. run.
  rewrite lookup_insert_ne by done. rewrite Hkv. reflexivity.
Qed.

(** C1.  With an empty cache, a request to [/bar] for which the registry
    answers 404, and one for which it answers 200 with a body that has no
    version field, are not passed through: the handler answers each with a
    302 redirect whose version is the text of null, and never reaches
    [fetch(request)]. *)
Theorem C1_failed_lookup_redirects_to_vnull :
  let request := GET ["bar"] None in
  let notFound := quiet ∅ (answers 404 None) in
  let noVersion := quiet ∅ (answers 200 (Some (JsObject [("name", JsString "bar")]))) in
  (fetch request notFound).1
  = Normal (Response_redirect
              "https://packages.electronjs.org/bar/vnull/index.html" 302)
  /\ calls request notFound
     = [KV_get "bar"; Fetch_url "https://registry.npmjs.org/@electron/bar/latest"]
  /\ (fetch request noVersion).1
     = Normal (Response_redirect
                 "https://packages.electronjs.org/bar/vnull/index.html" 302)
  /\ calls request noVersion
     = [KV_get "bar"; Fetch_url "https://registry.npmjs.org/@electron/bar/latest"].
Proof. repeat split; vm_compute; reflexivity. Qed.

(** ** The target of the redirect *)

Lemma C2_counterexample :
  let request := GET ["asar"; "latest"] None in
  let w := quiet asarStore unreachable in
  matches request "asar"
  /\ cached w "asar" "4.0.1"
  /\ (fetch request w).1
     <> Normal (Response_redirect
                  ("https://packages.electronjs.org" ++ "/" ++ "asar" ++ "/v" ++ "4.0.1"
                     ++ "/index.index" ++ URL.search (url request)) 302).
Proof.
  intros request w. split; [apply matches_asar_latest|].
  split; [by exists None|].
  vm_compute. discriminate.
Qed.

(** The version of a request: from the cache, or from the upstream when the
    cache has none and the write of the new entry is done. *)
Lemma resolved_run (w : World) (request : Request) (packageName version : string) :
  matches request packageName ->
  KV_get_throws w packageName = false ->
  version <> "" ->
  cached w packageName version
  \/ ((KV w !! packageName = None \/ cached w packageName "")
      /\ upstreamGives w packageName (JsString version)
      /\ KV_put_throws w packageName (JsString version) = false) ->
  (fetch request w).1
  = match redirectUrl packageName (JsString version) (URL.search (url request)) with
    | Some u => Normal (Response_redirect (URL.toString u) 302)
    | None => Unmodelled
    end.
Proof.
  intros Hmatch Hget Hv [Hhit|(Hmiss & Hup & Hput)].
  - by destruct (hit_run w request packageName Hmatch version Hget Hhit Hv) as (-> & _).
  - destruct (upstream_run w request packageName Hmatch (JsString version))
      as (-> & _); auto. by apply negb_empty.
Qed.

(** C2.  For every request that matches, with a parsed URL, and for which
    a version was obtained, from the cache, or from the upstream with the
    cache entry written, the handler answers with a 302 redirect to the URL
    that the service's origin, a slash, the package name, [/v], the version
    and [/index.html] parse to, with the query string of the request set as
    its search; when the version is text that a URL keeps as it is, that URL
    is this concatenation followed by the query string. *)
Theorem C2_redirect_target (w : World) (request : Request)
    (packageName version : string) :
  matches request packageName ->
  parsedURL (url request) ->
  KV_get_throws w packageName = false ->
  version <> "" ->
  cached w packageName version
  \/ ((KV w !! packageName = None \/ cached w packageName "")
      /\ upstreamGives w packageName (JsString version)
      /\ KV_put_throws w packageName (JsString version) = false) ->
  (exists u,
     URL.new ("/" ++ packageName ++ "/v" ++ version ++ "/index.html")
             "https://packages.electronjs.org" = Some u
     /\ (fetch request w).1
        = Normal (Response_redirect
                    (URL.toString (URL.set_search u (URL.search (url request)))) 302))
  /\ (forallS pathKept version = true ->
      (fetch request w).1
      = Normal (Response_redirect
                  ("https://packages.electronjs.org" ++ "/" ++ packageName ++ "/v"
                     ++ version ++ "/index.html" ++ URL.search (url request)) 302)).
Proof.
  intros Hmatch Hurl Hget Hv Hres.
  rewrite (resolved_run w request packageName version) by done. split.
  - destruct (redirectUrl_modelled request packageName (JsString version)
                (URL.search (url request)) Hurl Hmatch) as [u' Hu'].
    rewrite Hu'. unfold redirectUrl, redirectPath in Hu'. cbn [ToString] in Hu'.
    change serviceOrigin with "https://packages.electronjs.org" in Hu'.
    destruct (URL.new _ _) as [u|]; [|done]. cbn [mbind option_bind] in Hu'.
    injection Hu' as <-. by exists u.
  - intros Hver.
    destruct (redirectUrl_stable packageName version (url request)) as (u & -> & ->);
      try done.
    + by destruct (matches_segment _ _ Hmatch).
    + by apply (parsed_package_name request).
    + by destruct Hurl.
Qed.

Lemma C2_witness :
  let w := quiet ∅ (answers 200 (Some (JsObject [("version", JsString "5.0.0")]))) in
  (fetch (GET ["foo"] (Some "a=b")) w).1
  = Normal (Response_redirect
              "https://packages.electronjs.org/foo/v5.0.0/index.html?a=b" 302).
Proof.
  intros w.
  assert (Hup : upstreamGives w "foo" (JsString "5.0.0")).
  { eapply upstreamGives_answers; [reflexivity|lia|reflexivity]. }
  exact (proj2 (C2_redirect_target w (GET ["foo"] (Some "a=b")) "foo" "5.0.0"
                  (matches_foo (Some "a=b"))
                  (parsedURL_GET ["foo"] (Some "a=b") eq_refl eq_refl)
                  eq_refl ltac:(discriminate)
                  (or_intror (conj (or_introl eq_refl) (conj Hup eq_refl))))
               eq_refl).
Defined.

(** What a URL does not keep: a space in the version is percent-encoded,
    and a version with dot segments moves the path. *)
Example version_is_parsed :
  (fetch (GET ["asar"] None) (quiet {["asar" := mkEntry "4 0" None]} unreachable)).1
  = Normal (Response_redirect
              "https://packages.electronjs.org/asar/v4%200/index.html" 302)
  /\ (fetch (GET ["asar"] None) (quiet {["asar" := mkEntry "4/../.." None]} unreachable)).1
     = Normal (Response_redirect "https://packages.electronjs.org/index.html" 302).
Proof. split; vm_compute; reflexivity. Qed.

(** ** Failures of the store *)

Lemma C3_counterexample :
  let request := GET ["foo"] None in
  let w := mkWorld ∅ (fun _ => true) (fun _ _ => false)
             (answers 200 (Some (JsObject [("version", JsString "5.0.0")]))) [] [] in
  matches request "foo"
  /\ KV_get_throws w "foo" = true
  /\ upstreamGives w "foo" (JsString "5.0.0")
  /\ ~ In (Fetch_url (registryUrl "foo")) (calls request w)
  /\ (fetch request w).1 = Normal (Response_fetched request).
Proof.
  intros request w. split; [apply matches_foo|]. split; [reflexivity|].
  split; [eapply upstreamGives_answers; [reflexivity|lia|reflexivity]|].
  split; [|vm_compute; reflexivity].
  vm_compute. intros [H|[H|[]]]; discriminate H.
Qed.

(** What the console holds after a read that throws. *)
Lemma read_failure_log (w : World) (request : Request) (packageName : string) :
  matches request packageName ->
  KV_get_throws w packageName = true ->
  console (fetch request w).2
  = (console w
       ++ [Warn ("Error looking up package version for " ++ packageName ++ ":")
                (ArgError KVError)])%list.
Proof. intros Hmatch Hget. enter Hmatch. by rewrite Hget. Qed.

(** What the console holds after a write that throws. *)
Lemma write_failure_log (w : World) (request : Request) (packageName : string)
    (v : JsValue) :
  matches request packageName ->
  KV_get_throws w packageName = false ->
  KV w !! packageName = None \/ cached w packageName "" ->
  upstreamGives w packageName v -> ToBoolean v = true ->
  KV_put_throws w packageName v = true ->
  console (fetch request w).2
  = (console w
       ++ [Info ("No version found for " ++ packageName
                   ++ " in KV. Querying npm registry...");
           Warn ("Error looking up package version for " ++ packageName ++ ":")
                (ArgError KVError)])%list.
Proof.
  intros Hmatch Hget Hmiss (status & data & Hnet & Hok & Hprop) Hv Hput. enter Hmatch.
  rewrite Hget.
  assert (ToBoolean (match KV w !! packageName with
                     | Some e => JsString (value e) | None => JsNull end) = false) as ->.
  { destruct Hmiss as [->|[ttl ->]]; reflexivity. }
  cbn [negb]. run. rewrite Hnet. run. rewrite (status_ok _ Hok). run.
  rewrite Hprop. run. rewrite Hv. run. rewrite Hput. run.
  by rewrite <- app_assoc.
Qed.

(** C3.  When the cache read throws, or the cache write after a
    successful upstream call throws, the exception is caught and logged, by
    a warning that is the last line on the console, and the request is
    passed through to the origin: after a read that throws the upstream is
    not queried, after a write that throws the version of the upstream is not
    used for a redirect, and the store is as before. *)
Theorem C3_store_failure_passes_through (w : World) (request : Request)
    (packageName : string) :
  matches request packageName ->
  (KV_get_throws w packageName = true ->
   (fetch request w).1 = Normal (Response_fetched request)
   /\ calls request w = [KV_get packageName; Fetch_request request]
   /\ KV (fetch request w).2 = KV w
   /\ console (fetch request w).2
      = (console w
           ++ [Warn ("Error looking up package version for " ++ packageName ++ ":")
                    (ArgError KVError)])%list)
  /\ (forall v,
        KV_get_throws w packageName = false ->
        KV w !! packageName = None \/ cached w packageName "" ->
        upstreamGives w packageName v -> ToBoolean v = true ->
        KV_put_throws w packageName v = true ->
        (fetch request w).1 = Normal (Response_fetched request)
        /\ calls request w
           = [KV_get packageName; Fetch_url (registryUrl packageName);
              KV_put packageName v (Some 600%Z); Fetch_request request]
        /\ KV (fetch request w).2 = KV w
        /\ console (fetch request w).2
           = (console w
                ++ [Info ("No version found for " ++ packageName
                            ++ " in KV. Querying npm registry...");
                    Warn ("Error looking up package version for " ++ packageName ++ ":")
                         (ArgError KVError)])%list).
Proof.
  intros Hmatch. split.
  - intros Hget.
    destruct (read_failure_run w request packageName Hmatch Hget) as (H1 & H2 & H3).
    repeat split; try done. by apply read_failure_log.
  - intros v Hget Hmiss Hup Hv Hput.
    destruct (write_failure_run w request packageName Hmatch v Hget Hmiss Hup Hv Hput)
      as (H1 & H2 & H3).
    repeat split; try done. by apply (write_failure_log w request packageName v).
Qed.

Lemma C3_witness :
  let request := GET ["foo"] None in
  let body := Some (JsObject [("version", JsString "5.0.0")]) in
  let noRead := mkWorld ∅ (fun _ => true) (fun _ _ => false) (answers 200 body) [] [] in
  let noWrite := mkWorld ∅ (fun _ => false) (fun _ _ => true) (answers 200 body) [] [] in
  ((fetch request noRead).1 = Normal (Response_fetched request)
   /\ calls request noRead = [KV_get "foo"; Fetch_request request]
   /\ KV (fetch request noRead).2 = ∅
   /\ console (fetch request noRead).2
      = [Warn "Error looking up package version for foo:" (ArgError KVError)])
  /\ ((fetch request noWrite).1 = Normal (Response_fetched request)
      /\ calls request noWrite
         = [KV_get "foo"; Fetch_url (registryUrl "foo");
            KV_put "foo" (JsString "5.0.0") (Some 600%Z); Fetch_request request]
      /\ KV (fetch request noWrite).2 = ∅
      /\ console (fetch request noWrite).2
         = [Info "No version found for foo in KV. Querying npm registry...";
            Warn "Error looking up package version for foo:" (ArgError KVError)]).
Proof.
  intros request body noRead noWrite.
  assert (Hup : upstreamGives noWrite "foo" (JsString "5.0.0")).
  { eapply upstreamGives_answers; [reflexivity|lia|reflexivity]. }
  split.
  - exact (proj1 (C3_store_failure_passes_through noRead request "foo" (matches_foo None))
             eq_refl).
  - exact (proj2 (C3_store_failure_passes_through noWrite request "foo" (matches_foo None))
             (JsString "5.0.0") eq_refl (or_introl eq_refl) Hup eq_refl eq_refl).
Defined.

(** * Further properties of the handlers *)

(** ** The lookup, case by case *)

Lemma status_not_ok status : ~ (200 <= status <= 299)%Z ->
  ((200 <=? status)%Z && (status <=? 299)%Z) = false.
Proof.
  intros H. destruct (_ && _) eqn:E; [|done].
  apply andb_prop in E as [?%Z.leb_le ?%Z.leb_le]. destruct H. lia.
Qed.

Lemma status_ok_inv status :
  ((200 <=? status)%Z && (status <=? 299)%Z) = true -> (200 <= status <= 299)%Z.
Proof. intros [?%Z.leb_le ?%Z.leb_le]%andb_prop. lia. Qed.

(** A miss reads a falsy value: null, or the empty string. *)
Lemma miss_stored w packageName :
  miss w packageName ->
  ToBoolean (stored w packageName) = false
  /\ (ToString (stored w packageName) = "null" \/ ToString (stored w packageName) = "").
Proof. unfold stored. intros [->|[ttl ->]]; cbn; auto. Qed.

Lemma stored_falsy w packageName :
  ToBoolean (stored w packageName) = false -> miss w packageName.
Proof.
  unfold stored, miss, cached. destruct (KV w !! packageName) as [[v ttl]|]; [|auto].
  cbn [ToBoolean value]. intros Hv%negb_false_iff%String.eqb_eq. subst v. eauto.
Qed.

Lemma stored_truthy w packageName :
  ToBoolean (stored w packageName) = true ->
  exists v, cached w packageName v /\ v <> "" /\ stored w packageName = JsString v.
Proof.
  unfold stored, cached. destruct (KV w !! packageName) as [[v ttl]|]; [|done].
  cbn [ToBoolean value]. intros Hv%negb_true_iff%String.eqb_neq. eauto.
Qed.

(** A hit and a miss exclude each other. *)
Lemma miss_not_cached w packageName v :
  miss w packageName -> cached w packageName v -> v = "".
Proof.
  intros [Hnone|[ttl Hempty]] [ttl' Hv]; [by rewrite Hnone in Hv|].
  rewrite Hempty in Hv. by injection Hv.
Qed.

(** The lookup ends in one of the six ways of [lookup], and leaves the
    store, the network and the trace as that way says. *)
Lemma resolveVersion_lookup packageName w :
  exists cs,
    lookup w packageName (resolveVersion packageName w).1
           (KV (resolveVersion packageName w).2) cs
    /\ effects (resolveVersion packageName w).2 = (effects w ++ cs)%list
    /\ KV_get_throws (resolveVersion packageName w).2 = KV_get_throws w
    /\ KV_put_throws (resolveVersion packageName w).2 = KV_put_throws w
    /\ network (resolveVersion packageName w).2 = network w.
Proof.
  unfold resolveVersion. unfold_monad. run. fold (stored w packageName).
  destruct (KV_get_throws w packageName) eqn:Hget; run.
  { exists [KV_get packageName]. split; [by constructor|done]. }
  destruct (ToBoolean (stored w packageName)) eqn:Hv; run.
  { apply stored_truthy in Hv as (v & Hc & Hne & ->).
    exists [KV_get packageName]. split; [by constructor|done]. }
  apply stored_falsy in Hv.
  destruct (network w (registryUrl packageName)) as [|status body] eqn:Hnet; run.
  { eexists [_; _]. split; [apply lookup_upstream_throws; [done..|by left]|].
    by rewrite <- !app_assoc. }
  destruct ((200 <=? status)%Z && (status <=? 299)%Z) eqn:Hok; run.
  2:{ eexists [_; _]. split; [|by rewrite <- !app_assoc].
      apply lookup_unresolved; [done..|]. exists status, body. split; [done|]. left.
      intros [H1%Z.leb_le H2%Z.leb_le]. by rewrite H1, H2 in Hok. }
  apply status_ok_inv in Hok.
  destruct body as [data|]; run.
  2:{ eexists [_; _]. split; [|by rewrite <- !app_assoc].
      apply lookup_upstream_throws; [done..|]. right. exists status, None. auto. }
  destruct (property data "version") as [v|] eqn:Hprop; run.
  2:{ eexists [_; _]. split; [|by rewrite <- !app_assoc].
      apply lookup_upstream_throws; [done..|]. right. exists status, (Some data).
      split; [done|]. split; [done|]. right. by exists data. }
  destruct (ToBoolean v) eqn:Htruthy; run.
  2:{ eexists [_; _]. split; [|by rewrite <- !app_assoc].
      apply lookup_unresolved; [done..|]. exists status, (Some data). split; [done|].
      right. split; [done|]. by exists data, v. }
  assert (Hup : upstreamGives w packageName v) by by exists status, data.
  destruct (KV_put_throws w packageName v) eqn:Hput; run.
  - eexists [_; _; _]. split; [by apply lookup_write_throws|by rewrite <- !app_assoc].
  - eexists [_; _; _]. split; [by apply lookup_resolved|by rewrite <- !app_assoc].
Qed.

(** The handler on a request that matches: what it returns, the store it
    leaves and the calls it makes, by the way in which the lookup ends. *)
Lemma fetch_lookup request packageName w :
  matches request packageName ->
  exists o kv cs,
    lookup w packageName o kv cs
    /\ KV (fetch request w).2 = kv
    /\ match o with
       | Normal version =>
           (fetch request w).1
           = match redirectUrl packageName version (URL.search (url request)) with
             | Some u => Normal (Response_redirect (URL.toString u) 302)
             | None => Unmodelled
             end
           /\ calls request w = cs
       | Throw e =>
           (fetch request w).1 = Normal (Response_fetched request)
           /\ calls request w = (cs ++ [Fetch_request request])%list
           /\ last (console (fetch request w).2) = Some (caught packageName e)
       | Unmodelled => False
       end.
Proof.
  intros Hmatch. destruct (resolveVersion_lookup packageName w) as (cs & Hl & He & _).
  unfold calls. rewrite (fetch_matched _ _ _ Hmatch).
  destruct (resolveVersion packageName w) as [[version|e|] w1]; cbn [fst snd] in *.
  - exists (Normal version), (KV w1), cs. split; [done|].
    destruct (redirectUrl _ _ _); cbn [fst snd]; rewrite He, drop_app_length; done.
  - exists (Throw e), (KV w1), cs. split; [done|]. unfold_monad. run.
    rewrite He, <- app_assoc, drop_app_length, last_snoc. done.
  - inversion Hl.
Qed.

(** A request that matches has a package name. *)
Lemma String_match_matches request m :
  String_match (URL.pathname (url request)) pathRegex = Some m ->
  exists packageName, matches request packageName.
Proof.
  intros Hm. pose proof Hm as (name & _ & Hg)%String_match_recognized.
  exists name. by exists m.
Qed.

(** The handler leaves the behaviour of the store and of the network as it
    found it. *)
Lemma fetch_oracles request w :
  KV_get_throws (fetch request w).2 = KV_get_throws w
  /\ KV_put_throws (fetch request w).2 = KV_put_throws w
  /\ network (fetch request w).2 = network w.
Proof.
  destruct (String_match (URL.pathname (url request)) pathRegex) as [m|] eqn:Hm.
  2:{ by rewrite unmatched_run. }
  apply String_match_matches in Hm as [packageName Hmatch].
  rewrite (fetch_matched _ _ _ Hmatch).
  destruct (resolveVersion_lookup packageName w) as (cs & _ & _ & H1 & H2 & H3).
  destruct (resolveVersion packageName w) as [[version|e|] w1]; cbn [fst snd] in *;
    [done| |done].
  unfold_monad. run. done.
Qed.

(** An upstream call that throws, after a read that finds nothing. *)
Lemma upstream_throws_run w request packageName e :
  matches request packageName ->
  KV_get_throws w packageName = false ->
  miss w packageName ->
  upstreamThrows w packageName e ->
  fetch request w
  = (Normal (Response_fetched request),
     mkWorld (KV w) (KV_get_throws w) (KV_put_throws w) (network w)
       (effects w ++ [KV_get packageName; Fetch_url (registryUrl packageName);
                      Fetch_request request])
       (console w ++ [Info ("No version found for " ++ packageName
                              ++ " in KV. Querying npm registry...");
                      caught packageName e])).
Proof.
  intros Hmatch Hget [Hfalsy _]%miss_stored Hup. enter Hmatch.
  fold (stored w packageName). rewrite Hget, Hfalsy. run.
  destruct Hup as [[Hnet ->]|(status & body & Hnet & Hok & Hbody)]; rewrite Hnet; run.
  { by rewrite <- !app_assoc. }
  rewrite (status_ok _ Hok). run.
  destruct Hbody as [[-> ->]|(data & -> & Hprop & ->)]; run;
    [by rewrite <- !app_assoc|].
  rewrite Hprop. run. by rewrite <- !app_assoc.
Qed.

(** ** The URL of a redirect *)




(** The setter of the search keeps origin and path. *)
Lemma set_search_keeps u value :
  URL.origin (URL.set_search u value) = URL.origin u
  /\ URL.pathname (URL.set_search u value) = URL.pathname u.
Proof. by destruct value. Qed.


(** The text of the version enters the redirect through [ToString]. *)
Lemma redirectUrl_ToString packageName version search :
  redirectUrl packageName (JsString (ToString version)) search
  = redirectUrl packageName version search.
Proof. reflexivity. Qed.

(** X1.  No exception of the store, of the upstream call or of the
    reading of its body is the result of the handler: whatever these do, on
    a request with a parsed URL the handler ends with a 302 redirect or
    with the pass-through of the request it received, the call of its last
    line.  What that call gives, a response or a rejection, is the result
    of the handler as it is, for the call is outside the try block. *)
Theorem lookup_exceptions_are_caught (request : Request) (w : World) :
  parsedURL (url request) ->
  (fetch request w).1 = Normal (Response_fetched request)
  \/ exists location, (fetch request w).1 = Normal (Response_redirect location 302).
Proof.
  intros Hurl.
  destruct (String_match (URL.pathname (url request)) pathRegex) as [m|] eqn:Hm.
  2:{ rewrite unmatched_run by done. right. by eexists. }
  apply String_match_matches in Hm as [packageName Hmatch].
  destruct (fetch_lookup request packageName w Hmatch) as (o & kv & cs & _ & _ & Ho).
  destruct o as [version|e|]; [|by destruct Ho as (-> & _); left|done].
  destruct Ho as (-> & _). right.
  destruct (redirectUrl_modelled request packageName version (URL.search (url request)))
    as [u ->]; [done..|]. by eexists.
Qed.

Lemma lookup_exceptions_witness :
  let request := GET ["asar"; "latest"] None in
  let w := mkWorld ∅ (fun _ => true) (fun _ _ => true) unreachable [] [] in
  (fetch request w).1 = Normal (Response_fetched request)
  \/ exists location, (fetch request w).1 = Normal (Response_redirect location 302).
Proof.
  intros request w. apply (lookup_exceptions_are_caught request w).
  apply parsedURL_GET; reflexivity.
Defined.

(** X2.  For every request that matches, when the read finds no version
    and the upstream call throws (the call is rejected, or the body of an
    ok answer is not JSON, or is null), the exception is caught and logged,
    the request is passed through, the store is left as it was, and the
    calls are the read, the upstream call and the pass-through. *)
Theorem upstream_exception_passes_through (w : World) (request : Request)
    (packageName : string) (e : Exn) :
  matches request packageName ->
  KV_get_throws w packageName = false ->
  miss w packageName ->
  upstreamThrows w packageName e ->
  (fetch request w).1 = Normal (Response_fetched request)
  /\ calls request w = [KV_get packageName; Fetch_url (registryUrl packageName);
                        Fetch_request request]
  /\ KV (fetch request w).2 = KV w
  /\ last (console (fetch request w).2) = Some (caught packageName e).
Proof.
  intros Hmatch Hget Hmiss Hup. unfold calls.
  rewrite (upstream_throws_run w request packageName e) by done. run.
  rewrite drop_app_length.
  change (console w ++ [?i; ?c])%list with (console w ++ [i] ++ [c])%list.
  by rewrite app_assoc, last_snoc.
Qed.

Lemma upstream_exception_witness :
  (fetch (GET ["foo"] None) (quiet ∅ unreachable)).1
  = Normal (Response_fetched (GET ["foo"] None))
  /\ calls (GET ["foo"] None) (quiet ∅ unreachable)
     = [KV_get "foo"; Fetch_url "https://registry.npmjs.org/@electron/foo/latest";
        Fetch_request (GET ["foo"] None)].
Proof.
  destruct (upstream_exception_passes_through
              (quiet ∅ unreachable) (GET ["foo"] None) "foo" NetworkError)
    as (H1 & H2 & _).
  - apply matches_foo.
  - reflexivity.
  - left. reflexivity.
  - left. split; reflexivity.
  - split; [exact H1|exact H2].
Defined.

(** X3.  The handler passes a request through exactly when the path
    matches and the lookup throws: at the read, at the upstream call after
    a miss, or at the write of the version that the upstream gave.  The
    request that it passes on is the one it received. *)
Theorem passes_through_iff_lookup_throws (w : World) (request r : Request) :
  (fetch request w).1 = Normal (Response_fetched r)
  <-> r = request
      /\ exists packageName e,
           matches request packageName /\ lookupThrows w packageName e.
Proof.
  split.
  - destruct (String_match (URL.pathname (url request)) pathRegex) as [m|] eqn:Hm.
    2:{ by rewrite unmatched_run. }
    apply String_match_matches in Hm as [packageName Hmatch].
    destruct (fetch_lookup request packageName w Hmatch) as (o & kv & cs & Hl & _ & Ho).
    destruct o as [version|e|]; [| |done].
    { destruct Ho as (-> & _). by destruct (redirectUrl _ _ _). }
    destruct Ho as (-> & _). intros [= <-]. split; [done|].
    exists packageName, e. split; [done|]. unfold lookupThrows.
    inversion Hl; subst; [left|right..]; eauto 10.
  - intros (-> & packageName & e & Hmatch & [[Hget _]|(Hget & Hmiss & [Hup|Hput])]).
    + by destruct (read_failure_run w request packageName Hmatch Hget) as (-> & _).
    + by rewrite (upstream_throws_run w request packageName e).
    + destruct Hput as (v & Hup & Hv & Hput & _).
      by destruct (write_failure_run w request packageName Hmatch v) as (-> & _).
Qed.

(** X4.  For every request that matches, with a parsed URL, when the read
    finds no version and the upstream gives none either (the answer is not
    ok, or its version field is absent or falsy), the handler still answers
    with a 302 redirect: the version in its path is the text of what the
    read gave, [null] for no entry and nothing for an empty entry.  The
    calls are the read and the upstream call; nothing is written. *)
Theorem unresolved_lookup_redirects (w : World) (request : Request)
    (packageName : string) :
  matches request packageName ->
  parsedURL (url request) ->
  KV_get_throws w packageName = false ->
  miss w packageName ->
  upstreamGivesNone w packageName ->
  (fetch request w).1
  = Normal (Response_redirect
              (versionedLocation packageName (ToString (stored w packageName))
                                 (URL.search (url request))) 302)
  /\ (ToString (stored w packageName) = "null" \/ ToString (stored w packageName) = "")
  /\ calls request w = [KV_get packageName; Fetch_url (registryUrl packageName)]
  /\ KV (fetch request w).2 = KV w.
Proof.
  intros Hmatch Hurl Hget Hmiss (status & body & Hnet & Hnone).
  destruct (miss_stored w packageName Hmiss) as [Hfalsy Htext].
  destruct (redirectUrl_stable packageName (ToString (stored w packageName)) (url request))
    as (u & Hu & Hs).
  { by destruct (matches_segment _ _ Hmatch). }
  { by apply (parsed_package_name request). }
  { by destruct Htext as [->| ->]. }
  { by destruct Hurl. }
  rewrite redirectUrl_ToString in Hu.
  split; [|split; [done|]]; enter Hmatch; fold (stored w packageName);
    rewrite Hget, Hfalsy; run; rewrite Hnet; run.
  - destruct Hnone as [Hno|(Hok & data & v & -> & Hprop & Hv)].
    + rewrite (status_not_ok _ Hno). run. rewrite Hu. run. by rewrite Hs.
    + rewrite (status_ok _ Hok). run. rewrite Hprop. run. rewrite Hv. run.
      rewrite Hu. run. by rewrite Hs.
  - destruct Hnone as [Hno|(Hok & data & v & -> & Hprop & Hv)].
    + rewrite (status_not_ok _ Hno). run. rewrite Hu. run.
      by rewrite <- !app_assoc, drop_app_length.
    + rewrite (status_ok _ Hok). run. rewrite Hprop. run. rewrite Hv. run.
      rewrite Hu. run. by rewrite <- !app_assoc, drop_app_length.
Qed.

Lemma unresolved_lookup_witness :
  (fetch (GET ["foo"] (Some "a=1")) (quiet {["foo" := mkEntry "" None]} (answers 404 None))).1
  = Normal (Response_redirect "https://packages.electronjs.org/foo/v/index.html?a=1" 302).
Proof.
  destruct (unresolved_lookup_redirects
              (quiet {["foo" := mkEntry "" None]} (answers 404 None))
              (GET ["foo"] (Some "a=1")) "foo") as (H & _).
  - apply matches_foo.
  - apply parsedURL_GET; reflexivity.
  - reflexivity.
  - right. exists None. reflexivity.
  - exists 404%Z, None. split; [reflexivity|]. left. lia.
  - exact H.
Defined.

(** X5.  The only change that the handler makes to the store is the entry
    of the package of the request, written with a TTL of 600 by the write
    of the version that the upstream gave, and only after a miss; when that
    version is a string, the entry holds it as it is.  So an entry with a
    version that is not empty is never overwritten or removed. *)
Theorem store_changes_only_by_resolution (w : World) (request : Request) :
  (KV (fetch request w).2 = KV w
   \/ exists packageName v text,
        matches request packageName /\ miss w packageName
        /\ upstreamGives w packageName v /\ ToBoolean v = true
        /\ In (KV_put packageName v (Some 600%Z)) (calls request w)
        /\ KV (fetch request w).2
           = <[packageName := mkEntry text (Some 600%Z)]> (KV w)
        /\ (forall version, v = JsString version -> text = version))
  /\ (forall key version,
        cached w key version -> version <> "" -> cached (fetch request w).2 key version).
Proof.
  assert (H : KV (fetch request w).2 = KV w
              \/ exists packageName v text,
                   matches request packageName /\ miss w packageName
                   /\ upstreamGives w packageName v /\ ToBoolean v = true
                   /\ In (KV_put packageName v (Some 600%Z)) (calls request w)
                   /\ KV (fetch request w).2
                      = <[packageName := mkEntry text (Some 600%Z)]> (KV w)
                   /\ (forall version, v = JsString version -> text = version)).
  { destruct (String_match (URL.pathname (url request)) pathRegex) as [m|] eqn:Hm.
    2:{ left. by rewrite unmatched_run. }
    apply String_match_matches in Hm as [packageName Hmatch].
    destruct (fetch_lookup request packageName w Hmatch) as (o & kv & cs & Hl & <- & Ho).
    inversion Hl; subst; auto. right. exists packageName, v, (ToString v).
    destruct Ho as (_ & ->). repeat split; try done.
    - cbn. auto.
    - by intros version ->. }
  split; [exact H|]. intros key version Hc Hv.
  destruct H as [H|(packageName & v & text & _ & Hmiss & _ & _ & _ & H & _)];
    unfold cached in *; rewrite H; [done|].
  destruct (decide (packageName = key)) as [->|Hne].
  - by destruct Hv, (miss_not_cached w key version Hmiss Hc).
  - by rewrite lookup_insert_ne.
Qed.

Lemma store_changes_witness :
  cached (fetch (GET ["foo"] None)
                (quiet asarStore (answers 200 (Some (JsObject [("version", JsString "5.0.0")]))))).2
         "asar" "4.0.1".
Proof.
  apply (proj2 (store_changes_only_by_resolution
                  (quiet asarStore (answers 200 (Some (JsObject [("version", JsString "5.0.0")]))))
                  (GET ["foo"] None))).
  - exists None. reflexivity.
  - discriminate.
Defined.

(** X6.  On a request that matches, the handler makes at most one call of
    each kind, in the order read, upstream call, write, pass-through, and
    all for the package of the request: the read comes first, the upstream
    is called only after it, the write only after the upstream call, with
    the version that the upstream gave and a TTL of 600. *)
Theorem calls_follow_protocol (w : World) (request : Request) (packageName : string) :
  matches request packageName ->
  let read := KV_get packageName in
  let ask := Fetch_url (registryUrl packageName) in
  let pass := Fetch_request request in
  calls request w = [read]
  \/ calls request w = [read; pass]
  \/ calls request w = [read; ask]
  \/ calls request w = [read; ask; pass]
  \/ exists v,
       upstreamGives w packageName v /\ ToBoolean v = true
       /\ (calls request w = [read; ask; KV_put packageName v (Some 600%Z)]
           \/ calls request w = [read; ask; KV_put packageName v (Some 600%Z); pass]).
Proof.
  intros Hmatch read ask pass.
  destruct (fetch_lookup request packageName w Hmatch) as (o & kv & cs & Hl & _ & Ho).
  destruct o as [version|e|]; [destruct Ho as (_ & ->)|destruct Ho as (_ & -> & _)|done];
    inversion Hl; subst; cbn [app]; eauto 10.
Qed.

Lemma calls_follow_protocol_witness :
  let request := GET ["asar"; "latest"] None in
  let w := quiet asarStore unreachable in
  calls request w = [KV_get "asar"]
  \/ calls request w = [KV_get "asar"; Fetch_request request]
  \/ calls request w = [KV_get "asar"; Fetch_url (registryUrl "asar")]
  \/ calls request w = [KV_get "asar"; Fetch_url (registryUrl "asar"); Fetch_request request]
  \/ exists v,
       upstreamGives w "asar" v /\ ToBoolean v = true
       /\ (calls request w = [KV_get "asar"; Fetch_url (registryUrl "asar");
                              KV_put "asar" v (Some 600%Z)]
           \/ calls request w = [KV_get "asar"; Fetch_url (registryUrl "asar");
                                 KV_put "asar" v (Some 600%Z); Fetch_request request]).
Proof.
  intros request w.
  exact (calls_follow_protocol w request "asar" (matches_asar_latest None)).
Defined.



(** X8.  After a request whose version, a string that is not empty, came
    from the upstream and was written to the store, a later request for the
    same package, of any shape and with any query, on the environment that
    the first one left, is served from the store: the one call is the read,
    the store stays as it is, and the redirect is the one built from that
    version. *)
Theorem resolved_version_is_served_from_store (w : World) (request later : Request)
    (packageName version : string) :
  matches request packageName ->
  matches later packageName ->
  KV_get_throws w packageName = false ->
  miss w packageName ->
  upstreamGives w packageName (JsString version) ->
  version <> "" ->
  KV_put_throws w packageName (JsString version) = false ->
  let w1 := (fetch request w).2 in
  cached w1 packageName version
  /\ calls later w1 = [KV_get packageName]
  /\ KV (fetch later w1).2 = KV w1
  /\ (fetch later w1).1
     = match redirectUrl packageName (JsString version) (URL.search (url later)) with
       | Some u => Normal (Response_redirect (URL.toString u) 302)
       | None => Unmodelled
       end
  /\ (url later = url request -> (fetch later w1).1 = (fetch request w).1).
Proof.
  intros Hmatch Hlater Hget Hmiss Hup Hne Hput w1.
  destruct (upstream_run w request packageName Hmatch (JsString version)
              Hget Hmiss Hup (negb_empty version Hne) Hput) as (Hout & _ & Hkv).
  destruct (fetch_oracles request w) as (Hg & _).
  assert (Hget1 : KV_get_throws w1 packageName = false) by (unfold w1; by rewrite Hg).
  assert (Hc : cached w1 packageName version).
  { exists (Some 600%Z). unfold w1. rewrite Hkv. by rewrite lookup_insert_eq. }
  destruct (hit_run w1 later packageName Hlater version Hget1 Hc Hne)
    as (Hout1 & Hcalls1 & Hkv1).
  repeat split; try done. intros Heq. rewrite Hout1, Hout. by rewrite Heq.
Qed.

Lemma resolved_version_witness :
  let w := quiet ∅ (answers 200 (Some (JsObject [("version", JsString "5.0.0")]))) in
  calls (GET ["foo"; "latest"] None) (fetch (GET ["foo"] None) w).2 = [KV_get "foo"]
  /\ (fetch (GET ["foo"; "latest"] None) (fetch (GET ["foo"] None) w).2).1
     = Normal (Response_redirect
                 "https://packages.electronjs.org/foo/v5.0.0/index.html" 302).
Proof.
  intros w.
  destruct (resolved_version_is_served_from_store
              w (GET ["foo"] None) (GET ["foo"; "latest"] None) "foo" "5.0.0")
    as (_ & H1 & _ & H2 & _).
  - apply matches_foo.
  - exists [Some "/foo/latest"; Some "foo"; None]. split; reflexivity.
  - reflexivity.
  - left. reflexivity.
  - eapply upstreamGives_answers; [reflexivity|lia|reflexivity].
  - discriminate.
  - reflexivity.
  - split; [exact H1|exact H2].
Defined.

(** ** The pattern *)

(** X9.  The pattern of line 24 matches exactly the paths made of a slash,
    a name of one or more characters other than a slash, and one of four
    tails: nothing, a slash, [/latest], or [/latest/] followed by text
    without a line break.  The match holds the whole path, the name as
    group 1 and, for the last tail only, the text after [/latest] as
    group 2. *)
Theorem pathRegex_language (pathname : string) (m : list (option string)) :
  String_match pathname pathRegex = Some m
  <-> exists name tail group2,
        pathname = "/" ++ name ++ tail
        /\ segment name
        /\ m = [Some pathname; Some name; group2]
        /\ ((tail = "" /\ group2 = None)
            \/ (tail = "/" /\ group2 = None)
            \/ (tail = "/latest" /\ group2 = None)
            \/ exists rest,
                 tail = "/latest/" ++ rest
                 /\ forallS notLineTerminator rest = true
                 /\ group2 = Some ("/" ++ rest)).
Proof.
  rewrite String_match_pathRegex. split.
  - unfold pathMatchSpec. destruct pathname as [|c s]; [done|].
    destruct (Ascii.eqb_spec "/" c) as [<-|]; [|done].
    destruct (takeWhileS notSlash s) as [|n0 name] eqn:Hn; [done|].
    destruct (tailShape (dropWhileS notSlash s)) as [g2|] eqn:Ht; [|done].
    intros [= <-]. exists (String n0 name), (dropWhileS notSlash s), g2.
    split. { by rewrite <- Hn, takeWhileS_dropWhileS. }
    split. { split; [done|]. rewrite <- Hn. apply takeWhileS_forallS. }
    split; [done|].
    revert Ht. generalize (dropWhileS notSlash s). intros tail. unfold tailShape.
    destruct (stripPrefix "/latest" tail) as [r|] eqn:E.
    + apply stripPrefix_Some in E. subst tail. destruct r as [|c r].
      { intros [= <-]. auto. }
      destruct (Ascii.eqb_spec "/" c) as [<-|]; [|done]. cbn [andb].
      destruct (forallS notLineTerminator r) eqn:Hr; [|done].
      intros [= <-]. do 3 right. by exists r.
    + destruct tail as [|c [|c' t']]; [intros [= <-]; auto| |done].
      destruct (Ascii.eqb_spec "/" c) as [<-|]; [|done]. intros [= <-]. auto.
  - intros (name & tail & g2 & -> & Hseg & -> & Htail).
    apply pathMatchSpec_shape; [done|].
    destruct Htail as [[-> ->]|[[-> ->]|[[-> ->]|(rest & -> & Hrest & ->)]]];
      try reflexivity.
    unfold tailShape.
    change (stripPrefix "/latest" ("/latest/" ++ rest)) with (Some (String "/" rest)).
    change (Ascii.eqb "/" "/") with true. cbn [andb]. by rewrite Hrest.
Qed.

(** The path of a redirect, as text, is not matched: after the name comes
    a segment that starts with v. *)
Lemma versioned_path_unmatched packageName rest :
  segment packageName ->
  String_match ("/" ++ packageName ++ "/v" ++ rest) pathRegex = None.
Proof.
  intros [Hne Hall]. rewrite String_match_pathRegex. unfold pathMatchSpec.
  change ("/" ++ packageName ++ "/v" ++ rest)
    with (String "/" (packageName ++ String "/" (String "v" rest))).
  change (Ascii.eqb "/" "/") with true. cbv iota.
  destruct (span_append notSlash packageName (String "/" (String "v" rest)) Hall)
    as [-> ->].
  { right. by exists "/"%char, (String "v" rest). }
  destruct packageName; [done|]. reflexivity.
Qed.

(** X10.  The URL of a redirect is not a path that the handler resolves
    again: for a package name and a version of characters that a URL keeps,
    the path of the redirect does not match the pattern, and the handler
    answers a request for it with the redirect to the root, without a
    call. *)
Theorem redirect_target_is_unmatched (packageName version search : string) (u : URL.t) :
  segment packageName ->
  urlSegment packageName = true ->
  forallS pathKept version = true ->
  redirectUrl packageName (JsString version) search = Some u ->
  URL.pathname u = "/" ++ packageName ++ "/v" ++ version ++ "/index.html"
  /\ String_match (URL.pathname u) pathRegex = None
  /\ forall method w,
       fetch (mkRequest method u) w
       = (Normal (Response_redirect "https://packages.electronjs.org" 302), w).
Proof.
  intros Hseg Hp Hv. unfold redirectUrl, redirectPath. cbn [ToString].
  rewrite URLFacts.new_redirectPath by (done || by destruct Hseg).
  cbn [mbind option_bind]. intros [= <-].
  assert (Hpath : URL.pathname (URL.set_search
                    (URL.mkURL serviceOrigin [packageName; "v" ++ version; "index.html"]
                               None None) search)
                  = "/" ++ packageName ++ "/v" ++ version ++ "/index.html").
  { rewrite (proj2 (set_search_keeps _ _)). unfold URL.pathname.
    cbn [URL.path map String.concat]. reflexivity. }
  assert (Hno : String_match ("/" ++ packageName ++ "/v" ++ version ++ "/index.html")
                             pathRegex = None).
  { by apply (versioned_path_unmatched packageName (version ++ "/index.html")). }
  rewrite Hpath. split; [done|]. split; [done|].
  intros method w. apply unmatched_run. cbn [url]. by rewrite Hpath.
Qed.

Lemma redirect_target_witness :
  String_match "/asar/v4.0.1/index.html" pathRegex = None.
Proof.
  destruct (redirect_target_is_unmatched
              "asar" "4.0.1" ""
              (URL.mkURL serviceOrigin ["asar"; "v4.0.1"; "index.html"] None None))
    as (_ & H & _).
  - split; [discriminate|reflexivity].
  - reflexivity.
  - reflexivity.
  - reflexivity.
  - exact H.
Defined.

(** ** The URL of the upstream call *)

(** The path of the upstream call parses into its three segments. *)
Lemma new_registryPath base packageName :
  packageName <> "" ->
  urlSegment packageName = true ->
  URL.new ("/@electron/" ++ packageName ++ "/latest") base
  = Some (URL.mkURL base ["@electron"; packageName; "latest"] None None).
Proof.
  intros Hne [[Hp Hd1]%andb_prop Hd2]%andb_prop.
  apply negb_true_iff in Hd1, Hd2.
  unfold URL.new.
  change (URL.trimStart ("/@electron/" ++ ?x)) with ("/@electron/" ++ x).
  assert (URL.trimEnd ("/@electron/" ++ packageName ++ "/latest")
          = "/@electron/" ++ packageName ++ "/latest") as ->.
  { do 2 (apply URLFacts.trimEnd_append; [by repeat apply append_nonempty_r|]).
    reflexivity. }
  rewrite URLFacts.removeTabAndNewline_pathKept.
  2:{ rewrite !forallS_append.
      rewrite (forallS_impl pathKept _ packageName);
        first [reflexivity | done | by intros c ->]. }
  change ("/@electron/" ++ ?x) with (String "/" ("@electron" ++ String "/" x)).
  change (Ascii.eqb "/" "/") with true. cbv iota.
  change (URL.beginsWith URL.isSlash ("@electron" ++ ?x)) with false. cbv iota.
  rewrite URLFacts.pathState_kept by reflexivity.
  rewrite URLFacts.pathState_slash.
  change (URL.pushSegment ("" ++ "@electron") [] true) with ["@electron"].
  change (packageName ++ "/latest") with (packageName ++ String "/" ("latest" ++ "")).
  rewrite URLFacts.pathState_kept by done.
  rewrite URLFacts.pathState_slash, URLFacts.pushSegment_plain by done.
  rewrite URLFacts.pathState_kept by reflexivity.
  reflexivity.
Qed.

(** X11.  The upstream call of a request with a parsed URL is for the
    package of the request in the scope of the registry: its URL is the
    origin of the registry followed by a path that parses into the three
    segments [@electron], the package name and [latest], without query or
    fragment. *)
Theorem upstream_call_stays_in_scope (w : World) (request : Request)
    (packageName target : string) :
  parsedURL (url request) ->
  matches request packageName ->
  In (Fetch_url target) (calls request w) ->
  target = registryOrigin ++ "/@electron/" ++ packageName ++ "/latest"
  /\ URL.new ("/@electron/" ++ packageName ++ "/latest") registryOrigin
     = Some (URL.mkURL registryOrigin ["@electron"; packageName; "latest"] None None).
Proof.
  intros Hurl Hmatch Hin. split.
  - destruct (fetch_lookup request packageName w Hmatch) as (o & kv & cs & Hl & _ & Ho).
    assert (Hcs : In (Fetch_url target) cs).
    { destruct o as [version|e|]; [by destruct Ho as (_ & <-)| |done].
      destruct Ho as (_ & Hcalls & _). rewrite Hcalls in Hin.
      apply in_app_or in Hin as [Hin|[Hin|[]]]; [done|discriminate Hin]. }
    inversion Hl; subst; cbn [In] in Hcs;
      repeat match goal with
             | H : _ \/ _ |- _ => destruct H as [H|H]
             | H : False |- _ => destruct H
             | H : _ = Fetch_url _ |- _ => try discriminate H; injection H as <-
             end; reflexivity.
  - apply new_registryPath.
    + by destruct (matches_segment _ _ Hmatch).
    + by apply (parsed_package_name request).
Qed.

Lemma upstream_call_witness :
  "https://registry.npmjs.org/@electron/foo/latest"
  = registryOrigin ++ "/@electron/" ++ "foo" ++ "/latest"
  /\ URL.new ("/@electron/" ++ "foo" ++ "/latest") registryOrigin
     = Some (URL.mkURL registryOrigin ["@electron"; "foo"; "latest"] None None).
Proof.
  apply (upstream_call_stays_in_scope (quiet ∅ unreachable) (GET ["foo"] None) "foo").
  - apply parsedURL_GET; reflexivity.
  - apply matches_foo.
  - right. left. reflexivity.
Defined.

(** ** The console *)

(** The lookup writes a warning exactly when it ends with a version that
    is falsy. *)
Lemma resolveVersion_console packageName w :
  exists ls,
    console (resolveVersion packageName w).2 = (console w ++ ls)%list
    /\ existsb isWarn ls
       = match (resolveVersion packageName w).1 with
         | Normal v => negb (ToBoolean v)
         | _ => false
         end.
Proof.
  unfold resolveVersion. unfold_monad. run. fold (stored w packageName).
  destruct (KV_get_throws w packageName); run.
  { exists []. by rewrite app_nil_r. }
  destruct (ToBoolean (stored w packageName)) eqn:Hv; run.
  { eexists [_]. split; [done|]. by rewrite Hv. }
  destruct (network w (registryUrl packageName)) as [|status body]; run.
  { by eexists [_]. }
  destruct (_ && _); run.
  2:{ eexists [_; _]. split; [by rewrite <- !app_assoc|]. by rewrite Hv. }
  destruct body as [data|]; run; [|by eexists [_]].
  destruct (property data "version") as [v|]; run; [|by eexists [_]].
  destruct (ToBoolean v) eqn:Htruthy; run.
  2:{ eexists [_; _]. split; [by rewrite <- !app_assoc|]. by rewrite Hv. }
  destruct (KV_put_throws w packageName v); run; eexists [_]; split; try done.
  by rewrite Htruthy.
Qed.

(** X12.  On a request that matches, the handler writes a warning to the
    console exactly when no version is obtained: there is no warning when
    the read gives a version that is not empty, or gives none and the
    upstream gives one that is written to the store; in every other case,
    a call that throws or an upstream that gives no version, there is
    one. *)
Theorem warning_iff_no_version (w : World) (request : Request) (packageName : string) :
  matches request packageName ->
  existsb isWarn (consoleLines request w) = false <-> served w packageName.
Proof.
  intros Hmatch. split.
  - unfold consoleLines. rewrite (fetch_matched _ _ _ Hmatch).
    destruct (resolveVersion_lookup packageName w) as (cs & Hl & _).
    destruct (resolveVersion_console packageName w) as (ls & Hc & Hw).
    destruct (resolveVersion packageName w) as [[version|e|] w1]; cbn [fst snd] in *.
    + rewrite Hc, drop_app_length, Hw. intros Hv%negb_false_iff.
      inversion Hl; subst; (split; [done|]).
      * left. eauto.
      * match goal with H : miss _ _ |- _ => apply miss_stored in H as [H _] end.
        congruence.
      * right. eauto.
    + unfold_monad. run. rewrite Hc, <- app_assoc, drop_app_length.
      rewrite existsb_app. cbn. by rewrite orb_true_r.
    + inversion Hl.
  - intros [Hget [(v & Hc & Hv)|(Hmiss & v & Hup & Hv & Hput)]]; unfold consoleLines.
    + destruct Hc as [ttl Hkv]. enter Hmatch.
      rewrite Hget, Hkv. cbn [ToBoolean value]. rewrite (negb_empty v Hv). run.
      destruct (redirectUrl _ _ _); run; by rewrite drop_app_length.
    + destruct Hup as (status & data & Hnet & Hok & Hprop). enter Hmatch.
      fold (stored w packageName).
      rewrite Hget, (proj1 (miss_stored w packageName Hmiss)). run.
      rewrite Hnet. run. rewrite (status_ok _ Hok). run.
      rewrite Hprop. run. rewrite Hv. run. rewrite Hput. run.
      destruct (redirectUrl _ _ _); run; by rewrite drop_app_length.
Qed.

Lemma warning_iff_no_version_witness :
  existsb isWarn (consoleLines (GET ["asar"; "latest"] None) (quiet asarStore unreachable))
  = false.
Proof.
  apply (warning_iff_no_version (quiet asarStore unreachable) (GET ["asar"; "latest"] None)
                                "asar" (matches_asar_latest None)).
  split; [reflexivity|]. left. exists "4.0.1". split; [exists None; reflexivity|discriminate].
Defined.

(** ** What of the request reaches the redirect *)

(** X13.  The answer depends on the request through its package name and
    its query only: two requests for the same package with the same query
    leave the same store, and a redirect that answers one answers the other.
    So the text that follows [/latest] in a path is not carried into the
    redirect. *)
Theorem redirect_ignores_tail (w : World) (request other : Request)
    (packageName : string) :
  matches request packageName ->
  matches other packageName ->
  URL.search (url request) = URL.search (url other) ->
  KV (fetch request w).2 = KV (fetch other w).2
  /\ forall location status,
       (fetch request w).1 = Normal (Response_redirect location status) ->
       (fetch other w).1 = Normal (Response_redirect location status).
Proof.
  intros H1 H2 Hs. rewrite (fetch_matched _ _ _ H1), (fetch_matched _ _ _ H2), Hs.
  destruct (resolveVersion packageName w) as [[version|e|] w1]; [done| |done].
  unfold_monad. run. done.
Qed.

Lemma redirect_ignores_tail_witness :
  (fetch (GET ["asar"] (Some "a=1")) (quiet asarStore unreachable)).1
  = Normal (Response_redirect
              "https://packages.electronjs.org/asar/v4.0.1/index.html?a=1" 302).
Proof.
  destruct (redirect_ignores_tail
              (quiet asarStore unreachable)
              (GET ["asar"; "latest"; "docs"; "api"] (Some "a=1"))
              (GET ["asar"] (Some "a=1")) "asar") as (_ & H).
  - exists [Some "/asar/latest/docs/api"; Some "asar"; Some "/docs/api"].
    split; reflexivity.
  - apply matches_single. split; [discriminate|reflexivity].
  - reflexivity.
  - apply H. reflexivity.
Defined.

(** ** The other variant *)

(** Enter the matched branch of the other variant. *)
Ltac enter_variant Hmatch :=
  let m := fresh "m" in
  let Hm := fresh "Hm" in
  let Hg := fresh "Hg" in
  destruct Hmatch as (m & Hm & Hg);
  unfold variantCalls, Variant.fetch; rewrite Hm, Hg; cbn [ToString];
  unfold_monad; run.

(** The other variant on a request that matches, when its write and its
    read do not throw: by what the read gives. *)
Lemma variant_read_run w request packageName :
  matches request packageName ->
  KV_put_throws w "asar" (JsString "4.0.1") = false ->
  KV_get_throws w packageName = false ->
  let version := match fixedStore w !! packageName with
                 | Some e => JsString (value e)
                 | None => JsNull
                 end in
  KV (Variant.fetch request w).2 = fixedStore w
  /\ if ToBoolean version then
       (Variant.fetch request w).1
       = match redirectUrl packageName version (URL.search (url request)) with
         | Some u => Normal (Response_redirect (URL.toString u) 302)
         | None => Unmodelled
         end
       /\ variantCalls request w = [fixedWrite; KV_get packageName]
     else
       (Variant.fetch request w).1 = Normal (Response_fetched request)
       /\ variantCalls request w = [fixedWrite; KV_get packageName; Fetch_request request]
       /\ last (console (Variant.fetch request w).2)
          = Some (Info ("No version found in KV for package: " ++ packageName)).
Proof.
  intros Hmatch Hput Hget version. unfold version, fixedStore.
  split; enter_variant Hmatch; rewrite Hput; run; rewrite Hget; run.
  - destruct (ToBoolean _); run; [by destruct (redirectUrl _ _ _)|done].
  - destruct (ToBoolean _); run.
    + destruct (redirectUrl _ _ _); run; by rewrite <- !app_assoc, drop_app_length.
    + by rewrite <- !app_assoc, drop_app_length, last_snoc.
Qed.

(** The other variant when its write, or its read, throws. *)
Lemma variant_failure_run w request packageName :
  matches request packageName ->
  (KV_put_throws w "asar" (JsString "4.0.1") = true ->
   (Variant.fetch request w).1 = Normal (Response_fetched request)
   /\ variantCalls request w = [fixedWrite; Fetch_request request]
   /\ KV (Variant.fetch request w).2 = KV w
   /\ last (console (Variant.fetch request w).2) = Some (caught packageName KVError))
  /\ (KV_put_throws w "asar" (JsString "4.0.1") = false ->
      KV_get_throws w packageName = true ->
      (Variant.fetch request w).1 = Normal (Response_fetched request)
      /\ variantCalls request w = [fixedWrite; KV_get packageName; Fetch_request request]
      /\ KV (Variant.fetch request w).2 = fixedStore w
      /\ last (console (Variant.fetch request w).2) = Some (caught packageName KVError)).
Proof.
  intros Hmatch. split.
  - intros Hput. repeat split; enter_variant Hmatch; rewrite Hput; run;
      rewrite <- ?app_assoc, ?drop_app_length, ?last_snoc; done.
  - intros Hput Hget. repeat split; enter_variant Hmatch; rewrite Hput; run;
      rewrite Hget; run; rewrite <- ?app_assoc, ?drop_app_length, ?last_snoc; done.
Qed.

(** On a path that does not match, the other variant answers at once. *)
Lemma variant_unmatched_run request w :
  String_match (URL.pathname (url request)) pathRegex = None ->
  Variant.fetch request w = (Normal (Response_redirect serviceOrigin 302), w).
Proof. intros H. unfold Variant.fetch. by rewrite H. Qed.

(** X14.  The other variant writes the entry of [asar] before it reads:
    when neither call throws, a request for [asar] is answered with the
    redirect to version 4.0.1 whatever the store held, and the store then
    holds that version for [asar], without a TTL. *)
Theorem variant_asar_is_fixed (w : World) (request : Request) :
  matches request "asar" ->
  parsedURL (url request) ->
  KV_put_throws w "asar" (JsString "4.0.1") = false ->
  KV_get_throws w "asar" = false ->
  (Variant.fetch request w).1
  = Normal (Response_redirect
              (versionedLocation "asar" "4.0.1" (URL.search (url request))) 302)
  /\ variantCalls request w = [fixedWrite; KV_get "asar"]
  /\ KV (Variant.fetch request w).2 !! "asar" = Some (mkEntry "4.0.1" None).
Proof.
  intros Hmatch Hurl Hput Hget.
  destruct (variant_read_run w request "asar" Hmatch Hput Hget) as (Hkv & Hrun).
  unfold fixedStore in Hrun. rewrite lookup_insert_eq in Hrun. cbn in Hrun.
  destruct Hrun as (Hout & Hcalls). rewrite Hkv.
  split; [|split; [done|by apply lookup_insert_eq]]. rewrite Hout.
  destruct (redirectUrl_stable "asar" "4.0.1" (url request)) as (u & -> & ->);
    try done. by destruct Hurl.
Qed.

Lemma variant_asar_witness :
  (Variant.fetch (GET ["asar"; "latest"] None)
                 (quiet {["asar" := mkEntry "3.2.0" (Some 600%Z)]} unreachable)).1
  = Normal (Response_redirect "https://packages.electronjs.org/asar/v4.0.1/index.html" 302).
Proof.
  destruct (variant_asar_is_fixed
              (quiet {["asar" := mkEntry "3.2.0" (Some 600%Z)]} unreachable)
              (GET ["asar"; "latest"] None)) as (H & _).
  - apply matches_asar_latest.
  - apply parsedURL_GET; reflexivity.
  - reflexivity.
  - reflexivity.
  - exact H.
Defined.

(** X15.  The other variant redirects to a version only when the store,
    after its write, holds a version for the package that is not empty:
    every redirect it returns has status 302 and is the one to the root,
    for a path that does not match, or the one built from that version. *)
Theorem variant_redirects_only_with_version (w : World) (request : Request)
    (location : string) (status : Z) :
  (Variant.fetch request w).1 = Normal (Response_redirect location status) ->
  status = 302%Z
  /\ ((String_match (URL.pathname (url request)) pathRegex = None
       /\ location = "https://packages.electronjs.org")
      \/ exists packageName version ttl u,
           matches request packageName
           /\ version <> ""
           /\ fixedStore w !! packageName = Some (mkEntry version ttl)
           /\ redirectUrl packageName (JsString version) (URL.search (url request)) = Some u
           /\ location = URL.toString u).
Proof.
  destruct (String_match (URL.pathname (url request)) pathRegex) as [m|] eqn:Hm.
  2:{ rewrite variant_unmatched_run by done. intros [= <- <-]. auto. }
  apply String_match_matches in Hm as [packageName Hmatch].
  destruct (variant_failure_run w request packageName Hmatch) as [Hwrite Hread].
  destruct (KV_put_throws w "asar" (JsString "4.0.1")) eqn:Hput.
  { by destruct Hwrite as (-> & _). }
  destruct (KV_get_throws w packageName) eqn:Hget.
  { by destruct Hread as (-> & _). }
  destruct (variant_read_run w request packageName Hmatch Hput Hget) as (_ & Hrun).
  cbv zeta in Hrun.
  destruct (fixedStore w !! packageName) as [[version ttl]|] eqn:Hkv;
    [|by destruct Hrun as (-> & _)].
  cbn [value] in Hrun. destruct (ToBoolean (JsString version)) eqn:Hv;
    [|by destruct Hrun as (-> & _)].
  destruct Hrun as (-> & _).
  destruct (redirectUrl _ _ _) as [u|] eqn:Hu; [|done]. intros [= <- <-].
  split; [done|]. right. exists packageName, version, ttl, u.
  cbn [ToBoolean] in Hv. apply negb_true_iff, String.eqb_neq in Hv. done.
Qed.

Lemma variant_redirects_witness :
  302%Z = 302%Z
  /\ ((String_match (URL.pathname (url (GET ["asar"] None))) pathRegex = None
       /\ "https://packages.electronjs.org/asar/v4.0.1/index.html"
          = "https://packages.electronjs.org")
      \/ exists packageName version ttl u,
           matches (GET ["asar"] None) packageName
           /\ version <> ""
           /\ fixedStore (quiet ∅ unreachable) !! packageName = Some (mkEntry version ttl)
           /\ redirectUrl packageName (JsString version)
                          (URL.search (url (GET ["asar"] None))) = Some u
           /\ "https://packages.electronjs.org/asar/v4.0.1/index.html" = URL.toString u).
Proof.
  apply (variant_redirects_only_with_version (quiet ∅ unreachable) (GET ["asar"] None)).
  reflexivity.
Defined.

(** X16.  Whatever the store does, the other variant does not call the
    upstream registry: its calls are none, on a path that does not match,
    or its write of the fixed entry followed by the pass-through (the write
    throws), by the read for the package of the request (a hit), or by that
    read and the pass-through (a miss, or the read throws). *)
Theorem variant_calls_follow_protocol (w : World) (request : Request) :
  count isUpstreamCall (variantCalls request w) = 0
  /\ (variantCalls request w = []
      \/ exists packageName,
           matches request packageName
           /\ (variantCalls request w = [fixedWrite; Fetch_request request]
               \/ variantCalls request w = [fixedWrite; KV_get packageName]
               \/ variantCalls request w
                  = [fixedWrite; KV_get packageName; Fetch_request request])).
Proof.
  destruct (String_match (URL.pathname (url request)) pathRegex) as [m|] eqn:Hm.
  2:{ unfold variantCalls. rewrite variant_unmatched_run by done.
      cbn [fst snd]. rewrite drop_all. auto. }
  apply String_match_matches in Hm as [packageName Hmatch].
  destruct (variant_failure_run w request packageName Hmatch) as [Hwrite Hread].
  assert (Hcalls : variantCalls request w = [fixedWrite; Fetch_request request]
                   \/ variantCalls request w = [fixedWrite; KV_get packageName]
                   \/ variantCalls request w
                      = [fixedWrite; KV_get packageName; Fetch_request request]).
  { destruct (KV_put_throws w "asar" (JsString "4.0.1")) eqn:Hput.
    { destruct Hwrite as (_ & -> & _); auto. }
    destruct (KV_get_throws w packageName) eqn:Hget.
    { destruct Hread as (_ & -> & _); auto. }
    destruct (variant_read_run w request packageName Hmatch Hput Hget) as (_ & Hrun).
    cbv zeta in Hrun. destruct (ToBoolean _).
    - destruct Hrun as (_ & ->). auto.
    - destruct Hrun as (_ & -> & _). auto. }
  split.
  - by destruct Hcalls as [-> |[-> | ->]].
  - right. by exists packageName.
Qed.

(** X17.  On a cache hit the two handlers agree: when no call to the store
    throws and the store holds a version that is not empty for the package
    of the request (for [asar], the version that the other variant writes),
    both return the same response. *)
Theorem variants_agree_on_hit (w : World) (request : Request)
    (packageName version : string) :
  matches request packageName ->
  KV_put_throws w "asar" (JsString "4.0.1") = false ->
  KV_get_throws w packageName = false ->
  cached w packageName version ->
  version <> "" ->
  (packageName = "asar" -> version = "4.0.1") ->
  (Variant.fetch request w).1 = (fetch request w).1.
Proof.
  intros Hmatch Hput Hget Hc Hv Hasar.
  destruct (hit_run w request packageName Hmatch version Hget Hc Hv) as (-> & _).
  destruct (variant_read_run w request packageName Hmatch Hput Hget) as (_ & Hrun).
  cbv zeta in Hrun.
  assert (exists ttl, fixedStore w !! packageName = Some (mkEntry version ttl)) as [ttl Hkv].
  { unfold fixedStore. destruct (decide (packageName = "asar")) as [->|Hne].
    - rewrite lookup_insert_eq, (Hasar eq_refl). eauto.
    - rewrite lookup_insert_ne by done. exact Hc. }
  rewrite Hkv in Hrun. cbn [value ToBoolean] in Hrun. rewrite (negb_empty _ Hv) in Hrun.
  by destruct Hrun as (-> & _).
Qed.

Lemma variants_agree_witness :
  (Variant.fetch (GET ["foo"] None) (quiet {["foo" := mkEntry "5.0.0" None]} unreachable)).1
  = (fetch (GET ["foo"] None) (quiet {["foo" := mkEntry "5.0.0" None]} unreachable)).1.
Proof.
  apply (variants_agree_on_hit
           (quiet {["foo" := mkEntry "5.0.0" None]} unreachable) (GET ["foo"] None)
           "foo" "5.0.0").
  - apply matches_foo.
  - reflexivity.
  - reflexivity.
  - exists None. reflexivity.
  - discriminate.
  - discriminate.
Defined.

(** X18.  In the other variant a call to the store that throws is caught
    and logged, and the request is passed through: after a write that
    throws nothing is read and the store is as it was; after a read that
    throws the store holds the fixed entry. *)
Theorem variant_store_failure_passes_through (w : World) (request : Request)
    (packageName : string) :
  matches request packageName ->
  (KV_put_throws w "asar" (JsString "4.0.1") = true
   \/ KV_get_throws w packageName = true) ->
  (Variant.fetch request w).1 = Normal (Response_fetched request)
  /\ last (console (Variant.fetch request w).2) = Some (caught packageName KVError)
  /\ (KV_put_throws w "asar" (JsString "4.0.1") = true ->
      variantCalls request w = [fixedWrite; Fetch_request request]
      /\ KV (Variant.fetch request w).2 = KV w)
  /\ (KV_put_throws w "asar" (JsString "4.0.1") = false ->
      variantCalls request w = [fixedWrite; KV_get packageName; Fetch_request request]
      /\ KV (Variant.fetch request w).2 = fixedStore w).
Proof.
  intros Hmatch Hfail.
  destruct (variant_failure_run w request packageName Hmatch) as [Hwrite Hread].
  destruct (KV_put_throws w "asar" (JsString "4.0.1")) eqn:Hput.
  - destruct (Hwrite eq_refl) as (H1 & H2 & H3 & H4). repeat split; done.
  - destruct Hfail as [|Hget]; [done|].
    destruct (Hread eq_refl Hget) as (H1 & H2 & H3 & H4). repeat split; done.
Qed.

Lemma variant_store_failure_witness :
  (Variant.fetch (GET ["asar"] None)
                 (mkWorld asarStore (fun _ => false) (fun _ _ => true) unreachable [] [])).1
  = Normal (Response_fetched (GET ["asar"] None)).
Proof.
  destruct (variant_store_failure_passes_through
              (mkWorld asarStore (fun _ => false) (fun _ _ => true) unreachable [] [])
              (GET ["asar"] None) "asar") as (H & _).
  - apply matches_single. split; [discriminate|reflexivity].
  - left. reflexivity.
  - exact H.
Defined.

(** X19.  In the other variant a read that finds no version (no entry,
    or an empty one) for a package other than [asar] ends in the
    pass-through, after a line on the console; the calls are the write, the
    read and the pass-through. *)
Theorem variant_miss_is_passed_through (w : World) (request : Request)
    (packageName : string) :
  matches request packageName ->
  KV_put_throws w "asar" (JsString "4.0.1") = false ->
  KV_get_throws w packageName = false ->
  packageName <> "asar" ->
  miss w packageName ->
  (Variant.fetch request w).1 = Normal (Response_fetched request)
  /\ variantCalls request w = [fixedWrite; KV_get packageName; Fetch_request request]
  /\ KV (Variant.fetch request w).2 = fixedStore w
  /\ last (console (Variant.fetch request w).2)
     = Some (Info ("No version found in KV for package: " ++ packageName)).
Proof.
  intros Hmatch Hput Hget Hne Hmiss.
  destruct (variant_read_run w request packageName Hmatch Hput Hget) as (Hkv & Hrun).
  cbv zeta in Hrun. unfold fixedStore in Hrun at 1.
  rewrite lookup_insert_ne in Hrun by done. fold (stored w packageName) in Hrun.
  rewrite (proj1 (miss_stored w packageName Hmiss)) in Hrun.
  destruct Hrun as (H1 & H2 & H3). done.
Qed.

Lemma variant_miss_witness :
  (Variant.fetch (GET ["foo"] None) (quiet {["foo" := mkEntry "" None]} unreachable)).1
  = Normal (Response_fetched (GET ["foo"] None)).
Proof.
  destruct (variant_miss_is_passed_through
              (quiet {["foo" := mkEntry "" None]} unreachable) (GET ["foo"] None) "foo")
    as (H & _).
  - apply matches_foo.
  - reflexivity.
  - reflexivity.
  - discriminate.
  - right. exists None. reflexivity.
  - exact H.
Defined.
